(** * Calendar interval calculus of the [era] example application

    The development embeds the calendar example ([src/example/index.tsx]):
    its reducer, the grid-column computation of the month grids, and the
    segment computations of the day columns and of the time-zone gutter.
    The library functions the example imports ([viewOfInterval],
    [splitByUnit], [paddedMonthOf], ...) and the date/time collaborator
    (zoned instants, calendar arithmetic) are modelled from the
    specification. *)

From Stdlib Require Import ZArith List String Bool Lia.
Import ListNotations.
Open Scope string_scope.
Open Scope Z_scope.

(** ** Proleptic Gregorian calendar on day numbers

    Day number 0 is 1970-01-01.  The calendar is the one of the date/time
    collaborator; the example only reaches it through [DateTime] fields. *)

Module Civil.

Record date := mkDate { year : Z; month : Z; day : Z }.

(** Month index counted from March (March = 0 ... February = 11). *)
Definition mp_of_month (m : Z) : Z := if m <=? 2 then m + 9 else m - 3.
Definition month_of_mp (mp : Z) : Z := if mp <? 10 then mp + 3 else mp - 9.

(** Days before the first of the month, in a year that starts in March. *)
Definition doy_of_mp (mp : Z) : Z := (153 * mp + 2) / 5.

(** Days from the epoch of the year that starts on March 1st of year [y]. *)
Definition days_before_year (y : Z) : Z :=
  365 * y + y / 4 - y / 100 + y / 400.

Definition days_from_civil (y m d : Z) : Z :=
  let y' := if m <=? 2 then y - 1 else y in
  days_before_year y' + doy_of_mp (mp_of_month m) + (d - 1) - 719468.

Definition civil_from_days (n : Z) : date :=
  let z := n + 719468 in
  let era := z / 146097 in
  let doe := z - era * 146097 in
  let yoe := (doe - doe / 1460 + doe / 36524 - doe / 146096) / 365 in
  let doy := doe - (365 * yoe + yoe / 4 - yoe / 100) in
  let mp := (5 * doy + 2) / 153 in
  let d := doy - doy_of_mp mp + 1 in
  let m := month_of_mp mp in
  mkDate (yoe + era * 400 + (if m <=? 2 then 1 else 0)) m d.

Definition is_leap (y : Z) : bool :=
  ((y mod 4 =? 0) && negb (y mod 100 =? 0)) || (y mod 400 =? 0).

Definition days_in_month (y m : Z) : Z :=
  if m =? 2 then (if is_leap y then 29 else 28)
  else if (m =? 4) || (m =? 6) || (m =? 9) || (m =? 11) then 30
  else 31.

(** Length of month [mp] (counted from March); February takes [feb]. *)
Definition mp_len (feb mp : Z) : Z :=
  if mp =? 11 then feb
  else if (mp =? 1) || (mp =? 3) || (mp =? 6) || (mp =? 8) then 30 else 31.

Definition valid (dt : date) : Prop :=
  1 <= month dt <= 12 /\ 1 <= day dt <= days_in_month (year dt) (month dt).

(** ISO weekday, 1 = Monday ... 7 = Sunday (1970-01-01 was a Thursday). *)
Definition weekday_of_days (n : Z) : Z := (n + 3) mod 7 + 1.

End Civil.

(** ** Time zones and zoned instants

    The date/time collaborator of §6 of the specification: zoned
    TimePoints and calendar-unit arithmetic honouring DST.  An instant is a
    count of milliseconds since the epoch; a zone is its table of offset
    changes. *)

Definition MS_PER_MINUTE : Z := 60000.
Definition MS_PER_HOUR : Z := 3600000.
Definition MS_PER_DAY : Z := 86400000.

(** Modelled from the spec: the time zone of a TimePoint (§3, §6), as the
    table the collaborator consults.  [baseOffset] (minutes east of UTC)
    holds before the first transition; a transition [(t, o)] switches the
    offset to [o] minutes at instant [t]. *)
Record Zone := mkZone {
  baseOffset : Z;
  transitions : list (Z * Z)
}.

Fixpoint offsetFrom (o : Z) (l : list (Z * Z)) (t : Z) : Z :=
  match l with
  | [] => o
  | (T, o') :: r => if t <? T then o else offsetFrom o' r t
  end.

(** Offset in minutes in force at instant [t]. *)
Definition offset (z : Zone) (t : Z) : Z :=
  offsetFrom (baseOffset z) (transitions z) t.

(** Wall-clock reading at instant [t], as milliseconds on the local
    time line. *)
Definition localTS (z : Zone) (t : Z) : Z := t + offset z t * MS_PER_MINUTE.

(** Modelled from the spec: the collaborator's conversion of a wall-clock
    reading to an instant (§6, zoned TimePoint construction).  It is the
    earliest instant at or after [lo] whose reading has reached [L]: a
    reading skipped by a forward shift resolves to the instant of the
    shift, a repeated reading to its first occurrence. *)
Fixpoint fromLocalFrom (lo : option Z) (o : Z) (l : list (Z * Z)) (L : Z) : Z :=
  let c := match lo with
           | None => L - o * MS_PER_MINUTE
           | Some b => Z.max b (L - o * MS_PER_MINUTE)
           end in
  match l with
  | [] => c
  | (T, o') :: r => if c <? T then c else fromLocalFrom (Some T) o' r L
  end.

Definition fromLocal (z : Zone) (L : Z) : Z :=
  fromLocalFrom None (baseOffset z) (transitions z) L.

(** Modelled from the spec: the conversion with a hint, as calendar
    arithmetic on a TimePoint uses it (§6).  When the reading exists under
    the offset [o] the caller was in, that occurrence is kept; otherwise
    the earliest instant that reaches the reading. *)
Definition resolve (z : Zone) (L : Z) (o : Z) : Z :=
  let g := L - o * MS_PER_MINUTE in
  if offset z g =? o then g else fromLocal z L.

(** Zone tables the collaborator serves: transitions in increasing order
    and at least two days apart, each moving the wall clock by less than
    twelve hours. *)
Definition MIN_GAP : Z := 2 * MS_PER_DAY.
Definition MAX_SHIFT : Z := 720.
Definition SHIFT_MS : Z := MAX_SHIFT * MS_PER_MINUTE.

Fixpoint wf_transitions (prev : option Z) (o : Z) (l : list (Z * Z)) : bool :=
  match l with
  | [] => true
  | (T, o') :: r =>
      match prev with
      | None => true
      | Some p => p + MIN_GAP <=? T
      end
      && (Z.abs (o' - o) <? MAX_SHIFT)
      && wf_transitions (Some T) o' r
  end.

Definition wf_zone (z : Zone) : bool :=
  wf_transitions None (baseOffset z) (transitions z).

(** Largest wall-clock shift of a zone table, in minutes. *)
Fixpoint maxShiftFrom (o : Z) (l : list (Z * Z)) : Z :=
  match l with
  | [] => 0
  | (_, o') :: r => Z.max (Z.abs (o' - o)) (maxShiftFrom o' r)
  end.

Definition maxShift (z : Zone) : Z := maxShiftFrom (baseOffset z) (transitions z).

(** No transition of the zone falls in the span [(a, b]]. *)
Definition transitionFree (z : Zone) (a b : Z) : bool :=
  forallb (fun tr => (fst tr <=? a) || (b <? fst tr)) (transitions z).

(** Modelled from the spec: the TimePoint of §3, an instant with its
    zone; the calendar fields are read off the wall clock. *)
Record DateTime := mkDateTime { ts : Z; zone : Zone }.

Module DT.

Definition local (x : DateTime) : Z := localTS (zone x) (ts x).
Definition offset (x : DateTime) : Z := offset (zone x) (ts x).

(** The instant of [x]'s zone that reads [L], preferring [x]'s offset. *)
Definition withLocal (x : DateTime) (L : Z) : DateTime :=
  mkDateTime (resolve (zone x) L (offset x)) (zone x).

(** Local calendar day number and time of day. *)
Definition localDay (x : DateTime) : Z := local x / MS_PER_DAY.
Definition timeOfDay (x : DateTime) : Z := local x mod MS_PER_DAY.

Definition civil (x : DateTime) : Civil.date := Civil.civil_from_days (localDay x).
Definition year (x : DateTime) : Z := Civil.year (civil x).
Definition month (x : DateTime) : Z := Civil.month (civil x).
Definition day (x : DateTime) : Z := Civil.day (civil x).
Definition weekday (x : DateTime) : Z := Civil.weekday_of_days (localDay x).
Definition hour (x : DateTime) : Z := timeOfDay x / MS_PER_HOUR.
Definition minute (x : DateTime) : Z := (timeOfDay x mod MS_PER_HOUR) / MS_PER_MINUTE.

Definition toUTC (x : DateTime) : DateTime := mkDateTime (ts x) (mkZone 0 []).

End DT.

(** A calendar date and wall-clock time in a zone. *)
Definition localDateTime (z : Zone) (y m d hh mm : Z) : DateTime :=
  mkDateTime (fromLocal z (Civil.days_from_civil y m d * MS_PER_DAY
                           + hh * MS_PER_HOUR + mm * MS_PER_MINUTE)) z.

Inductive Granularity := Hour | Day | Week | Month | Year.

(** A rounding-down map on a time line. *)
Definition floor_like (f : Z -> Z) : Prop :=
  (forall n, f n <= n) /\ (forall n, f (f n) = f n) /\
  (forall a b, a <= b -> f a <= f b).

(** Modelled from the spec: the start of the local day, week (Monday, the
    collaborator's ISO convention), month and year of §3 and §4.1, first on
    day numbers, then on wall-clock readings. *)
Definition floorDays (g : Granularity) (n : Z) : Z :=
  match g with
  | Hour | Day => n
  | Week => n - (Civil.weekday_of_days n - 1)
  | Month => let c := Civil.civil_from_days n in
             Civil.days_from_civil (Civil.year c) (Civil.month c) 1
  | Year => Civil.days_from_civil (Civil.year (Civil.civil_from_days n)) 1 1
  end.

Definition floorLocal (g : Granularity) (L : Z) : Z :=
  match g with
  | Hour => L / MS_PER_HOUR * MS_PER_HOUR
  | _ => floorDays g (L / MS_PER_DAY) * MS_PER_DAY
  end.

Definition startOf (g : Granularity) (x : DateTime) : DateTime :=
  DT.withLocal x (floorLocal g (DT.local x)).

(** Modelled from the spec: the Duration of §3, as the example builds it,
    an object of unit counts. *)
Record Duration := mkDuration {
  years : Z; months : Z; weeks : Z; days : Z; hours : Z; minutes : Z
}.

Definition noDuration : Duration := mkDuration 0 0 0 0 0 0.
Definition ofMinutes (n : Z) : Duration := mkDuration 0 0 0 0 0 n.
Definition ofDays (n : Z) : Duration := mkDuration 0 0 0 n 0 0.
Definition ofUnit (g : Granularity) (n : Z) : Duration :=
  match g with
  | Hour => mkDuration 0 0 0 0 n 0
  | Day => mkDuration 0 0 0 n 0 0
  | Week => mkDuration 0 0 n 0 0 0
  | Month => mkDuration 0 n 0 0 0 0
  | Year => mkDuration n 0 0 0 0 0
  end.

Definition negate (d : Duration) : Duration :=
  mkDuration (- years d) (- months d) (- weeks d) (- days d)
             (- hours d) (- minutes d).

(** Length of the clock part of a duration. *)
Definition timeMillis (d : Duration) : Z :=
  hours d * MS_PER_HOUR + minutes d * MS_PER_MINUTE.

(** Nominal length used to recognise an empty duration (a day counts
    twenty-four hours, a month thirty days, a year 365 days). *)
Definition asMilliseconds (d : Duration) : Z :=
  (years d * 365 + months d * 30 + weeks d * 7 + days d) * MS_PER_DAY
  + timeMillis d.

(** Modelled from the spec: calendar-unit arithmetic of the collaborator
    (§6).  Calendar units move the local date (the day of month clamped to
    the target month), clock units move the instant. *)
Definition shiftDays (d : Duration) (n : Z) : Z :=
  let c := Civil.civil_from_days n in
  let mi := (Civil.year c + years d) * 12 + (Civil.month c - 1) + months d in
  let y' := mi / 12 in
  let m' := mi mod 12 + 1 in
  let d' := Z.min (Civil.day c) (Civil.days_in_month y' m') in
  Civil.days_from_civil y' m' d' + weeks d * 7 + days d.

Definition plus (x : DateTime) (d : Duration) : DateTime :=
  let moved :=
    DT.withLocal x (shiftDays d (DT.localDay x) * MS_PER_DAY + DT.timeOfDay x) in
  mkDateTime (ts moved + timeMillis d) (zone x).

Definition minus (x : DateTime) (d : Duration) : DateTime := plus x (negate d).

(** Modelled from the spec: the Interval of §3, a half-open span of
    TimePoints, with [contains] of §4.4. *)
Record Interval := mkInterval { start : DateTime; end_ : DateTime }.

Module Iv.

Definition isValid (i : Interval) : bool := ts (start i) <=? ts (end_ i).

Definition contains (i : Interval) (x : DateTime) : bool :=
  (ts (start i) <=? ts x) && (ts x <? ts (end_ i)).

Definition length_ms (i : Interval) : Z := ts (end_ i) - ts (start i).

End Iv.

(** ** Results of fallible calls *)

Inductive Error :=
| UnsupportedGranularity
| InvalidInterval
| MisalignedInterval
| Unbounded.

Inductive result (A : Type) :=
| Ok (a : A)
| Err (e : Error).
Arguments Ok {A} a.
Arguments Err {A} e.

Definition bind {A B : Type} (r : result A) (k : A -> result B) : result B :=
  match r with
  | Ok a => k a
  | Err e => Err e
  end.

Notation "x <- r ;; k" := (bind r (fun x => k))
  (at level 61, r at next level, right associativity).

(** ** Splitting by a fixed duration *)

(** Modelled from the spec: [splitBy] of §4.2, the collaborator's
    [Interval.splitBy].  The loop runs while the cursor is before the end;
    each round adds the duration to the cursor and clamps at the end.  It
    is bounded by the number of whole minutes of the interval, the smallest
    step a duration makes; running into the bound is reported as
    [Unbounded]. *)

Fixpoint splitBy_loop (fuel : nat) (dur : Duration) (s e : DateTime)
  : result (list Interval) :=
  if ts s <? ts e then
    match fuel with
    | O => Err Unbounded
    | S fuel' =>
        let added := plus s dur in
        let next := if ts e <? ts added then e else added in
        rest <- splitBy_loop fuel' dur next e ;;
        Ok (mkInterval s next :: rest)
    end
  else Ok [].

Definition loopBound (i : Interval) : nat :=
  Z.to_nat (Iv.length_ms i / MS_PER_MINUTE + 1).

Definition splitBy (i : Interval) (dur : Duration) : result (list Interval) :=
  if negb (Iv.isValid i) || (asMilliseconds dur =? 0) then Ok []
  else splitBy_loop (loopBound i) dur (start i) (end_ i).

(** ** The library the example imports (ViewWindow, Splitter, MonthPadder,
    Predicates) *)

(** Modelled from the spec: the Granularity values of §3, as the strings
    the example passes to the library. *)
Definition parseGranularity (s : string) : option Granularity :=
  if String.eqb s "hour" then Some Hour
  else if String.eqb s "day" then Some Day
  else if String.eqb s "week" then Some Week
  else if String.eqb s "month" then Some Month
  else if String.eqb s "year" then Some Year
  else None.

(** Modelled from the spec: [viewOfInterval] of §4.1 on a recognised
    granularity: the window opens at the start of the anchor's unit (local
    midnight, start of the week, first of the month, January 1st) and
    closes one calendar unit later (the next midnight, seven days on, the
    first of the next month, the next January 1st).  §4.1 lists day, week,
    month and year; the hour window is formed the same way. *)
Definition viewOfIntervalG (anchor : DateTime) (g : Granularity) : Interval :=
  let s := startOf g anchor in
  mkInterval s (plus s (ofUnit g 1)).

(** Modelled from the spec: [viewOfInterval] of §4.1 and §7; an
    unrecognised granularity fails with [UnsupportedGranularity]. *)
Definition viewOfInterval (anchor : DateTime) (granularity : string)
  : result Interval :=
  match parseGranularity granularity with
  | Some g => Ok (viewOfIntervalG anchor g)
  | None => Err UnsupportedGranularity
  end.

(** Modelled from the spec: the wrappers of §4.1. *)
Definition dayOf (x : DateTime) : Interval := viewOfIntervalG x Day.
Definition weekOf (x : DateTime) : Interval := viewOfIntervalG x Week.
Definition today (now : DateTime) : Interval := viewOfIntervalG now Day.

(** Modelled from the spec: [splitByUnit] of §4.2 and §7.  The walk
    advances one calendar unit at a time from the start; it must land on
    the end exactly. *)
Fixpoint splitByUnit_loop (fuel : nat) (g : Granularity) (s e : DateTime)
  : result (list Interval) :=
  if ts s <? ts e then
    match fuel with
    | O => Err Unbounded
    | S fuel' =>
        let next := plus s (ofUnit g 1) in
        if ts e <? ts next then Err MisalignedInterval
        else rest <- splitByUnit_loop fuel' g next e ;;
             Ok (mkInterval s next :: rest)
    end
  else Ok [].

Definition splitByUnit (i : Interval) (unit : string) : result (list Interval) :=
  match parseGranularity unit with
  | None => Err UnsupportedGranularity
  | Some g =>
      if Iv.isValid i then splitByUnit_loop (loopBound i) g (start i) (end_ i)
      else Err InvalidInterval
  end.

(** Modelled from the spec: [PaddingConfig] of §3 with its default. *)
Record PaddingConfig := mkPadding { daysPerWeek : Z; weeksPerMonth : Z }.
Definition defaultPadding : PaddingConfig := mkPadding 7 6.

(** Modelled from the spec: [paddedMonthOf] of §4.3. *)
Definition paddedMonthOf (anchor : DateTime) (config : PaddingConfig) : Interval :=
  let s := startOf Week (startOf Month anchor) in
  mkInterval s (plus s (ofDays (weeksPerMonth config * daysPerWeek config))).

(** Modelled from the spec: [viewOfDays] of §4.1.  A day is one element, a
    week its seven days, a month the padded grid; hour and year windows are
    not expanded to days. *)
Definition viewOfDays (anchor : DateTime) (granularity : string)
  : result (list Interval) :=
  match parseGranularity granularity with
  | None => Err UnsupportedGranularity
  | Some Day => Ok [dayOf anchor]
  | Some Week => splitByUnit (weekOf anchor) "day"
  | Some Month => splitByUnit (paddedMonthOf anchor defaultPadding) "day"
  | Some Hour | Some Year => Ok []
  end.

(** Modelled from the spec: the predicates of §4.4. *)
Definition weekendDays : list Z := [6; 7].

Definition isWeekend (x : DateTime) : bool :=
  existsb (Z.eqb (DT.weekday x)) weekendDays.

Definition isToday (now x : DateTime) : bool :=
  DT.localDay x =? DT.localDay (mkDateTime (ts now) (zone x)).

(** ** The example application ([src/example/index.tsx]) *)

Inductive View := ViewDay | ViewWeek | ViewMonth | ViewYear.

Definition viewName (v : View) : string :=
  match v with
  | ViewDay => "day"
  | ViewWeek => "week"
  | ViewMonth => "month"
  | ViewYear => "year"
  end.

Record CalendarState := mkState {
  view : View;
  datetime : DateTime;
  interval : Interval
}.

(** An action carries its [type] tag; the two declared actions carry a
    payload, any other tag reaches the [default] branch. *)
Inductive CalendarAction :=
| SetView (payload : View)
| SetDatetime (payload : DateTime)
| OtherAction (type : string).

Definition reducer (state : CalendarState) (action : CalendarAction)
  : result CalendarState :=
  match action with
  | SetView payload =>
      i <- viewOfInterval (datetime state) (viewName payload) ;;
      Ok (mkState payload (datetime state) i)
  | SetDatetime payload =>
      i <- viewOfInterval payload (viewName (view state)) ;;
      Ok (mkState (view state) payload i)
  | OtherAction _ => Ok state
  end.

(** [initialState] reads the clock twice, once for each field. *)
Definition initialState (now1 now2 : DateTime) : CalendarState :=
  mkState ViewWeek now1 (weekOf now2).

(** [CalendarDay]: the half-hour segments drawn for a day column. *)
Definition CalendarDay_segments (day : Interval) : result (list Interval) :=
  v <- viewOfInterval (start day) "day" ;;
  segments <- splitBy v (ofMinutes 30) ;;
  if negb (Z.of_nat (List.length segments) =? 48) then
    v' <- viewOfInterval (minus (start day) (ofDays 2)) "day" ;;
    splitBy v' (ofMinutes 30)
  else Ok segments.


(** [CalendarMonth] and [CalendarMiniMonth]: the grid column of the [i]-th
    rendered day ([None] stands for [undefined]). *)
Definition CalendarMonth_gridColumn (i : nat) (day : Interval) : option Z :=
  let weekday := DT.weekday (start day) in
  if Nat.eqb i 0 then Some (if weekday =? 7 then 0 else weekday + 1) else None.

Definition CalendarMiniMonth_gridColumn (i : nat) (day : Interval) : option Z :=
  let weekday := DT.weekday (start day) in
  if Nat.eqb i 0 then Some (if weekday =? 7 then 0 else weekday + 1) else None.

(** [CalendarMonth]: the weekend decoration of a day cell. *)
Definition CalendarMonth_weekendClass (day : Interval) : bool :=
  DT.weekday (start day) >? 5.

(** [CalendarMiniMonth] and [CalendarYear]: the lists they render. *)
Definition CalendarMiniMonth_days (month : Interval) : result (list Interval) :=
  splitByUnit (paddedMonthOf (start month) (mkPadding 7 6)) "days".

Definition CalendarYear_months (datetime : DateTime) : result (list Interval) :=
  i <- viewOfInterval datetime "year" ;;
  splitByUnit i "months".

(** ** Sample zones *)

Definition utc : Zone := mkZone 0 [].

(** America/New_York around 2021: EST, daylight time from 2021-03-14
    07:00 UTC to 2021-11-07 06:00 UTC. *)
Definition newYork : Zone :=
  mkZone (-300)
    [ (Civil.days_from_civil 2021 3 14 * MS_PER_DAY + 7 * MS_PER_HOUR, -240);
      (Civil.days_from_civil 2021 11 7 * MS_PER_DAY + 6 * MS_PER_HOUR, -300) ].

(** Antarctica/Troll around 2021: UTC in winter, two hours ahead from
    2021-03-28 01:00 UTC to 2021-10-31 01:00 UTC. *)
Definition troll : Zone :=
  mkZone 0
    [ (Civil.days_from_civil 2021 3 28 * MS_PER_DAY + 1 * MS_PER_HOUR, 120);
      (Civil.days_from_civil 2021 10 31 * MS_PER_DAY + 1 * MS_PER_HOUR, 0) ].



(** ** Properties stated about the example *)

(** The reducer's view, anchor and window agree. *)
Definition consistent (st : CalendarState) : Prop :=
  viewOfInterval (datetime st) (viewName (view st)) = Ok (interval st).

(** The half-hour segmentation of the day of [x] itself. *)
Definition segmentationOf (x : DateTime) : result (list Interval) :=
  v <- viewOfInterval x "day" ;;
  splitBy v (ofMinutes 30).

Definition segmentCount (r : result (list Interval)) : option Z :=
  match r with
  | Ok l => Some (Z.of_nat (List.length l))
  | Err _ => None
  end.

(** ** More of the example application ([src/example/index.tsx]) *)

(** [useCalendar]: the state after a series of dispatched actions. *)
Fixpoint dispatchAll (state : CalendarState) (actions : list CalendarAction)
  : result CalendarState :=
  match actions with
  | [] => Ok state
  | action :: rest => state' <- reducer state action ;; dispatchAll state' rest
  end.

(** The payload of the last [set.view] (of the last [set.datetime]) of a
    series of actions, [v] ([d]) when there is none. *)
Fixpoint lastView (v : View) (actions : list CalendarAction) : View :=
  match actions with
  | [] => v
  | SetView payload :: rest => lastView payload rest
  | _ :: rest => lastView v rest
  end.

Fixpoint lastDatetime (d : DateTime) (actions : list CalendarAction) : DateTime :=
  match actions with
  | [] => d
  | SetDatetime payload :: rest => lastDatetime payload rest
  | _ :: rest => lastDatetime d rest
  end.

(** Whether a series holds a [set.view] or a [set.datetime]. *)
Definition isDeclared (action : CalendarAction) : bool :=
  match action with
  | OtherAction _ => false
  | _ => true
  end.

(** [CalendarViewSelect]: for each option its label, whether it is the
    checked one, and the action its click dispatches. *)
Record ViewOption := mkViewOption {
  optionLabel : string;
  optionActive : bool;
  optionClick : CalendarAction
}.

Definition viewOptions : list View := [ViewDay; ViewWeek; ViewMonth; ViewYear].

Definition CalendarViewSelect (view : View) : list ViewOption :=
  map (fun option =>
         mkViewOption (viewName option)
                      (String.eqb (viewName view) (viewName option))
                      (SetView option))
      viewOptions.

(** The unit a view names, the key of the duration [{[view]: 1}]. *)
Definition viewGranularity (v : View) : Granularity :=
  match v with
  | ViewDay => Day
  | ViewWeek => Week
  | ViewMonth => Month
  | ViewYear => Year
  end.

(** [CalendarNav]: the actions of its three buttons. *)
Definition CalendarNav_prev (view : View) (datetime : DateTime) : CalendarAction :=
  SetDatetime (minus datetime (ofUnit (viewGranularity view) 1)).

Definition CalendarNav_next (view : View) (datetime : DateTime) : CalendarAction :=
  SetDatetime (plus datetime (ofUnit (viewGranularity view) 1)).

Definition CalendarNav_goToday (now : DateTime) : CalendarAction :=
  SetDatetime (startOf Day (start (today now))).

(** [CalendarDays]: the day columns of the day and week views. *)
Definition CalendarDays_days (view : View) (datetime : DateTime)
  : result (list Interval) :=
  viewOfDays datetime (viewName view).

(** [CalendarDay]: the classes of a day column and the action of its
    header. *)
Record DayClasses := mkDayClasses {
  dayToday : bool;
  dayWeekend : bool;
  dayHighlight : bool
}.

Definition CalendarDay_className (now datetime : DateTime) (day : Interval)
  : DayClasses :=
  mkDayClasses (isToday now (start day)) (isWeekend (start day))
               (Iv.contains day datetime).


(** [CalendarMonth]: its cells, and for a cell whether it is the active
    one, whether it belongs to an adjacent month, and the action of its
    click. *)
Definition CalendarMonth_days (datetime : DateTime) : result (list Interval) :=
  viewOfDays datetime "month".

Definition CalendarMonth_isActive (datetime : DateTime) (day : Interval) : bool :=
  Iv.contains day datetime.

Definition CalendarMonth_isPadded (datetime : DateTime) (day : Interval) : bool :=
  negb (DT.month (start day) =? DT.month datetime).

Definition CalendarMonth_handleDayClick (day : Interval) : CalendarAction :=
  SetDatetime (start day).

(** Modelled from the spec: the collaborator's end of a unit (§6, calendar
    arithmetic), the last millisecond before the next unit starts. *)
Definition endOf (g : Granularity) (x : DateTime) : DateTime :=
  mkDateTime (ts (startOf g (plus x (ofUnit g 1))) - 1) (zone x).

(** [CalendarApp]: the month handed to the mini month of the sidebar. *)
Definition CalendarApp_sidebarMonth (datetime : DateTime) : Interval :=
  mkInterval (startOf Month datetime) (endOf Month datetime).

(** Modelled from the spec: the collaborator's comparisons of TimePoints
    (§6): equality of instant and zone, and lying in the same unit. *)
Definition zone_eqb (a b : Zone) : bool :=
  (baseOffset a =? baseOffset b)
  && (Nat.eqb (List.length (transitions a)) (List.length (transitions b)))
  && forallb (fun p => (fst (fst p) =? fst (snd p)) && (snd (fst p) =? snd (snd p)))
             (combine (transitions a) (transitions b)).

Definition equals (a b : DateTime) : bool :=
  (ts a =? ts b) && zone_eqb (zone a) (zone b).

Definition hasSame (a other : DateTime) (g : Granularity) : bool :=
  (ts (startOf g a) <=? ts other) && (ts other <=? ts (endOf g a)).

(** [CalendarMiniMonth]: the decorations of a cell. *)
Record MiniMonthClasses := mkMiniMonthClasses {
  miniToday : bool;
  miniInterval : bool;
  miniPadded : bool;
  miniIntervalStart : bool;
  miniIntervalEnd : bool
}.

Definition CalendarMiniMonth_classes
  (spanMonths : bool) (month interval : Interval) (now : DateTime) (day : Interval)
  : MiniMonthClasses :=
  let isToday := Iv.contains day now in
  let isPadded := negb (DT.month (start day) =? DT.month (start month)) in
  let isInterval := Iv.contains interval (start day) in
  let highlightDay := if spanMonths then isInterval
                      else isInterval && negb isPadded in
  mkMiniMonthClasses
    (isToday && negb isPadded)
    highlightDay
    (isPadded && negb highlightDay)
    (highlightDay && equals (start interval) (startOf Day (start day)))
    (highlightDay && hasSame (end_ interval) (endOf Day (start day)) Day).

(** ** Consecutive days *)

Definition shiftMillis (x : DateTime) (ms : Z) : DateTime :=
  mkDateTime (ts x + ms) (zone x).

(** [n] consecutive spans of twenty-four hours from [s]. *)
Fixpoint dayChain (s : DateTime) (n : nat) : list Interval :=
  match n with
  | O => []
  | S k => mkInterval s (shiftMillis s MS_PER_DAY)
           :: dayChain (shiftMillis s MS_PER_DAY) k
  end.

(** The cells of a list that contain [x]. *)
Definition cellsContaining (x : DateTime) (days : list Interval) : list Interval :=
  filter (fun day => Iv.contains day x) days.

(** The offset in force when the wall clock shows the same time on the
    date [d] leads to, counted in whole days from [x], is the offset at
    [x]. *)
Definition sameOffsetAfter (x : DateTime) (d : Duration) : bool :=
  offset (zone x)
         (ts x + (shiftDays d (DT.localDay x) - DT.localDay x) * MS_PER_DAY)
  =? DT.offset x.

(** The wall-clock time of [x] exists on the date [d] leads to: the
    earliest instant that reaches that reading shows it exactly, no shift
    of the clock skips it. *)
Definition wallTimeExistsAfter (x : DateTime) (d : Duration) : bool :=
  let L := shiftDays d (DT.localDay x) * MS_PER_DAY + DT.timeOfDay x in
  localTS (zone x) (fromLocal (zone x) L) =? L.

(** * Proofs *)

(** ** The calendar: day numbers and valid dates correspond *)

Module CivilFacts.
Import Civil.

Ltac zdiv := Z.div_mod_to_equations; lia.

Lemma mp_month_inv mp : 0 <= mp < 12 -> mp_of_month (month_of_mp mp) = mp.
Proof.
  intros H. unfold mp_of_month, month_of_mp.
  destruct (Z.ltb_spec mp 10); destruct (Z.leb_spec (mp + 3) 2);
    destruct (Z.leb_spec (mp - 9) 2); lia.
Qed.

Lemma month_mp_inv m : 1 <= m <= 12 -> month_of_mp (mp_of_month m) = m.
Proof.
  intros H. unfold mp_of_month, month_of_mp.
  destruct (Z.leb_spec m 2); [destruct (Z.ltb_spec (m + 9) 10)|destruct (Z.ltb_spec (m - 3) 10)]; lia.
Qed.

Lemma month_of_mp_range mp : 0 <= mp < 12 -> 1 <= month_of_mp mp <= 12.
Proof. intros H. unfold month_of_mp. destruct (Z.ltb_spec mp 10); lia. Qed.

Lemma days_before_year_era era yoe : 0 <= yoe < 400 ->
  days_before_year (yoe + era * 400) = era * 146097 + (365 * yoe + yoe / 4 - yoe / 100).
Proof. intros H. unfold days_before_year. zdiv. Qed.

Lemma yoe_doy_bounds doe : 0 <= doe < 146097 ->
  let yoe := (doe - doe / 1460 + doe / 36524 - doe / 146096) / 365 in
  0 <= yoe < 400 /\ 0 <= doe - (365 * yoe + yoe / 4 - yoe / 100) <= 365.
Proof. intros H yoe. subst yoe. zdiv. Qed.

Lemma mp_d_bounds doy : 0 <= doy <= 365 ->
  let mp := (5 * doy + 2) / 153 in
  0 <= mp < 12 /\ 1 <= doy - doy_of_mp mp + 1 <= 31.
Proof. intros H mp. subst mp. unfold doy_of_mp. zdiv. Qed.

Theorem days_from_civil_from_days n :
  let dt := civil_from_days n in
  days_from_civil (year dt) (month dt) (day dt) = n.
Proof.
  unfold civil_from_days. cbv zeta.
  set (z := n + 719468). set (era := z / 146097).
  set (doe := z - era * 146097).
  assert (Hdoe : 0 <= doe < 146097) by (subst doe era; zdiv).
  pose proof (yoe_doy_bounds doe Hdoe) as Hy. cbv zeta in Hy.
  set (yoe := (doe - doe / 1460 + doe / 36524 - doe / 146096) / 365) in *.
  set (doy := doe - (365 * yoe + yoe / 4 - yoe / 100)) in *.
  destruct Hy as [Hyoe Hdoy].
  pose proof (mp_d_bounds doy Hdoy) as Hm. cbv zeta in Hm.
  set (mp := (5 * doy + 2) / 153) in *. destruct Hm as [Hmp Hd].
  cbn [year month day]. unfold days_from_civil.
  rewrite (mp_month_inv mp Hmp).
  replace (if month_of_mp mp <=? 2
           then yoe + era * 400 + (if month_of_mp mp <=? 2 then 1 else 0) - 1
           else yoe + era * 400 + (if month_of_mp mp <=? 2 then 1 else 0))
    with (yoe + era * 400) by (destruct (month_of_mp mp <=? 2); lia).
  rewrite (days_before_year_era era yoe Hyoe).
  subst doy doe z. lia.
Qed.

Lemma is_leap_spec y :
  is_leap y = true <-> (y mod 4 = 0 /\ y mod 100 <> 0) \/ y mod 400 = 0.
Proof.
  unfold is_leap. rewrite orb_true_iff, andb_true_iff, negb_true_iff.
  rewrite !Z.eqb_eq, Z.eqb_neq. tauto.
Qed.

Lemma is_leap_era era yoe : is_leap (yoe + era * 400) = is_leap yoe.
Proof.
  unfold is_leap.
  replace ((yoe + era * 400) mod 4) with (yoe mod 4) by zdiv.
  replace ((yoe + era * 400) mod 100) with (yoe mod 100) by zdiv.
  replace ((yoe + era * 400) mod 400) with (yoe mod 400) by zdiv.
  reflexivity.
Qed.

(** Length of the year that starts in March of year-of-era [yoe]. *)
Lemma yoe_doy_leap doe : 0 <= doe < 146097 ->
  let yoe := (doe - doe / 1460 + doe / 36524 - doe / 146096) / 365 in
  doe - (365 * yoe + yoe / 4 - yoe / 100) = 365 -> is_leap (yoe + 1) = true.
Proof.
  intros H yoe Hd. apply is_leap_spec. subst yoe. zdiv.
Qed.

Lemma yoe_recover yoe doyv : 0 <= yoe < 400 ->
  0 <= doyv <= 365 -> (doyv = 365 -> is_leap (yoe + 1) = true) ->
  let doe := 365 * yoe + yoe / 4 - yoe / 100 + doyv in
  0 <= doe < 146097 /\
  (doe - doe / 1460 + doe / 36524 - doe / 146096) / 365 = yoe.
Proof.
  intros Hy Hd Hl doe. subst doe. rewrite is_leap_spec in Hl.
  split.
  - zdiv.
  - zdiv.
Qed.

Ltac twelve k :=
  let Hk := fresh "Hk" in
  assert (k = 0 \/ k = 1 \/ k = 2 \/ k = 3 \/ k = 4 \/ k = 5 \/ k = 6 \/
          k = 7 \/ k = 8 \/ k = 9 \/ k = 10 \/ k = 11) as Hk by lia;
  repeat (destruct Hk as [Hk|Hk]; [subst k|]); [..|subst k].

Ltac mp_eval :=
  repeat match goal with
  | |- context [doy_of_mp ?k] =>
      let v := eval vm_compute in (doy_of_mp k) in change (doy_of_mp k) with v
  | |- context [mp_len ?f ?k] =>
      let v := eval vm_compute in (mp_len f k) in change (mp_len f k) with v
  | H : context [doy_of_mp ?k] |- _ =>
      let v := eval vm_compute in (doy_of_mp k) in change (doy_of_mp k) with v in H
  | H : context [mp_len ?f ?k] |- _ =>
      let v := eval vm_compute in (mp_len f k) in change (mp_len f k) with v in H
  end.

Lemma days_in_month_mp y mp : 0 <= mp < 12 ->
  days_in_month y (month_of_mp mp) = mp_len (if is_leap y then 29 else 28) mp.
Proof. intros H. twelve mp; reflexivity. Qed.


Lemma mp_recover mp d : 0 <= mp < 12 -> 1 <= d <= mp_len 29 mp ->
  (5 * (doy_of_mp mp + (d - 1)) + 2) / 153 = mp.
Proof.
  intros H. twelve mp; intros Hd; mp_eval; zdiv.
Qed.

Lemma mp_d_valid doy : 0 <= doy <= 365 ->
  let mp := (5 * doy + 2) / 153 in
  0 <= mp < 12 /\ 1 <= doy - doy_of_mp mp + 1 /\
  (doy <= 364 -> doy - doy_of_mp mp + 1 <= mp_len 28 mp) /\
  (doy - doy_of_mp mp + 1 <= mp_len 29 mp).
Proof.
  intros H mp.
  assert (Hmp : 0 <= mp < 12) by (subst mp; zdiv).
  assert (Hlo : doy_of_mp mp <= doy) by (subst mp; unfold doy_of_mp; zdiv).
  assert (Hhi : forall feb, (mp = 11 -> doy - 337 + 1 <= feb) ->
                 doy - doy_of_mp mp + 1 <= mp_len feb mp).
  { intros feb Hfeb.
    assert (Hmp' : 5 * doy + 2 < 153 * (mp + 1)) by (subst mp; zdiv).
    clearbody mp.
    twelve mp; mp_eval; lia. }
  repeat split; try lia.
  - intros H364. apply Hhi. lia.
  - apply Hhi. lia.
Qed.


Lemma mp_len_mono feb feb' mp : feb <= feb' -> mp_len feb mp <= mp_len feb' mp.
Proof.
  intros H. unfold mp_len. destruct (mp =? 11); [lia|].
  destruct ((mp =? 1) || (mp =? 3) || (mp =? 6) || (mp =? 8)); lia.
Qed.

Lemma month_of_mp_le2 mp : 0 <= mp < 12 ->
  (month_of_mp mp <=? 2) = (10 <=? mp).
Proof.
  intros H. twelve mp; reflexivity.
Qed.

Theorem civil_from_days_valid n : valid (civil_from_days n).
Proof.
  unfold civil_from_days, valid. cbv zeta.
  set (z := n + 719468). set (era := z / 146097).
  set (doe := z - era * 146097).
  assert (Hdoe : 0 <= doe < 146097) by (subst doe era; zdiv).
  pose proof (yoe_doy_bounds doe Hdoe) as Hy.
  pose proof (yoe_doy_leap doe Hdoe) as Hl. cbv zeta in Hy, Hl.
  set (yoe := (doe - doe / 1460 + doe / 36524 - doe / 146096) / 365) in *.
  set (doy := doe - (365 * yoe + yoe / 4 - yoe / 100)) in *.
  destruct Hy as [Hyoe Hdoy].
  pose proof (mp_d_valid doy Hdoy) as Hm. cbv zeta in Hm.
  set (mp := (5 * doy + 2) / 153) in *.
  destruct Hm as (Hmp & Hd1 & Hd28 & Hd29).
  cbn [year month day].
  split; [apply month_of_mp_range; exact Hmp|].
  split; [exact Hd1|].
  rewrite (days_in_month_mp _ mp Hmp).
  assert (H11 : doy = 365 -> mp = 11)
    by (intros E; subst mp; rewrite E; reflexivity).
  clearbody mp doy yoe doe era z.
  destruct (Z.eq_dec doy 365) as [H365|H365].
  - pose proof (H11 H365) as Hmp11.
    rewrite (month_of_mp_le2 mp Hmp). rewrite Hmp11. 
    change (10 <=? 11) with true. cbv iota.
    replace (yoe + era * 400 + 1) with ((yoe + 1) + era * 400) by lia.
    rewrite is_leap_era, (Hl H365). rewrite <- Hmp11. exact Hd29.
  - eapply Z.le_trans; [apply Hd28; lia|].
    apply mp_len_mono. match goal with |- context [is_leap ?a] => destruct (is_leap a) end; lia.
Qed.

Lemma days_before_year_succ y :
  days_before_year y - days_before_year (y - 1) = if is_leap y then 366 else 365.
Proof.
  unfold days_before_year.
  destruct (is_leap y) eqn:E.
  - apply is_leap_spec in E. zdiv.
  - assert (~ ((y mod 4 = 0 /\ y mod 100 <> 0) \/ y mod 400 = 0)) as E'
      by (rewrite <- is_leap_spec, E; discriminate).
    zdiv.
Qed.

Lemma days_from_civil_day y m d :
  days_from_civil y m d = days_from_civil y m 1 + (d - 1).
Proof. unfold days_from_civil. lia. Qed.

Theorem civil_from_days_from_civil y m d :
  valid (mkDate y m d) ->
  civil_from_days (days_from_civil y m d) = mkDate y m d.
Proof.
  unfold valid. cbn [year month day]. intros [Hm Hd].
  set (mp := mp_of_month m).
  assert (Hmp : 0 <= mp < 12)
    by (subst mp; unfold mp_of_month; destruct (Z.leb_spec m 2); lia).
  assert (Hmm : month_of_mp mp = m) by (apply month_mp_inv; exact Hm).
  assert (Hle : (m <=? 2) = (10 <=? mp))
    by (rewrite <- Hmm at 1; apply month_of_mp_le2; exact Hmp).
  set (y' := if m <=? 2 then y - 1 else y).
  set (era := y' / 400). set (yoe := y' - era * 400).
  assert (Hyoe : 0 <= yoe < 400) by (subst yoe era; zdiv).
  assert (Hy' : y' = yoe + era * 400) by (subst yoe; lia).
  rewrite <- Hmm in Hd. rewrite (days_in_month_mp y mp Hmp) in Hd.
  set (doyv := doy_of_mp mp + (d - 1)).
  assert (Hd29 : 1 <= d <= mp_len 29 mp).
  { split; [lia|]. eapply Z.le_trans; [apply Hd|].
    apply mp_len_mono. destruct (is_leap y); lia. }
  assert (Hdoyv : 0 <= doyv <= 365).
  { subst doyv. clearbody mp. clear - Hmp Hd29. twelve mp; mp_eval; lia. }
  assert (Hleap : doyv = 365 -> is_leap (yoe + 1) = true).
  { intros H365.
    assert (mp = 11 /\ d = 29) as [Hmp11 Hd29'].
    { subst doyv. clearbody mp. clear - Hmp Hd29 H365. twelve mp; mp_eval; lia. }
    assert (y = (yoe + 1) + era * 400) as Hyy.
    { subst y'. rewrite Hle, Hmp11 in Hy'. change (10 <=? 11) with true in Hy'.
      cbv iota in Hy'. lia. }
    rewrite Hmp11 in Hd. change (mp_len ?f 11) with f in Hd.
    rewrite Hyy, is_leap_era in Hd.
    destruct (is_leap (yoe + 1)); [reflexivity|lia]. }
  pose proof (yoe_recover yoe doyv Hyoe Hdoyv Hleap) as Hrec. cbv zeta in Hrec.
  set (doe := 365 * yoe + yoe / 4 - yoe / 100 + doyv) in *.
  destruct Hrec as [Hdoe Hyrec].
  assert (Hz : days_from_civil y m d + 719468 = era * 146097 + doe).
  { unfold days_from_civil. fold y' mp. rewrite Hy'.
    rewrite (days_before_year_era era yoe Hyoe). subst doe doyv. lia. }
  unfold civil_from_days. cbv zeta. rewrite Hz.
  assert (He : (era * 146097 + doe) / 146097 = era) by zdiv.
  rewrite He.
  replace (era * 146097 + doe - era * 146097) with doe by lia.
  rewrite Hyrec.
  replace (doe - (365 * yoe + yoe / 4 - yoe / 100)) with doyv by (subst doe; lia).
  assert (Hmprec : (5 * doyv + 2) / 153 = mp)
    by (subst doyv; apply mp_recover; assumption).
  rewrite Hmprec, Hmm. f_equal.
  - subst y'. destruct (m <=? 2); lia.
  - subst doyv. lia.
Qed.

Lemma days_in_month_range y m : 28 <= days_in_month y m <= 31.
Proof.
  unfold days_in_month. destruct (m =? 2); [destruct (is_leap y); lia|].
  destruct ((m =? 4) || (m =? 6) || (m =? 9) || (m =? 11)); lia.
Qed.

Lemma days_from_civil_low y m d : m <= 2 ->
  days_from_civil y m d =
  days_before_year (y - 1) + doy_of_mp (m + 9) + (d - 1) - 719468.
Proof.
  intros H. unfold days_from_civil, mp_of_month.
  destruct (Z.leb_spec m 2); [reflexivity|lia].
Qed.

Lemma days_from_civil_high y m d : 2 < m ->
  days_from_civil y m d =
  days_before_year y + doy_of_mp (m - 3) + (d - 1) - 719468.
Proof.
  intros H. unfold days_from_civil, mp_of_month.
  destruct (Z.leb_spec m 2); [lia|reflexivity].
Qed.


Lemma days_before_year_mono y1 y2 : y1 <= y2 ->
  days_before_year y1 <= days_before_year y2.
Proof. intros H. unfold days_before_year. zdiv. Qed.

Lemma jan1_succ y :
  days_from_civil (y + 1) 1 1 - days_from_civil y 1 1 =
  if is_leap y then 366 else 365.
Proof.
  rewrite !days_from_civil_low by lia.
  pose proof (days_before_year_succ y). replace (y + 1 - 1) with y by lia. lia.
Qed.

Lemma jan1_mono y1 y2 : y1 <= y2 ->
  days_from_civil y1 1 1 <= days_from_civil y2 1 1.
Proof.
  intros H. rewrite !days_from_civil_low by lia.
  pose proof (days_before_year_mono (y1 - 1) (y2 - 1)). lia.
Qed.

(** A valid date lies within its year. *)
Lemma year_block y m d : valid (mkDate y m d) ->
  days_from_civil y 1 1 <= days_from_civil y m d < days_from_civil (y + 1) 1 1.
Proof.
  unfold valid. cbn [year month day]. intros [Hm Hd].
  pose proof (days_in_month_range y m) as Hr.
  pose proof (days_before_year_succ y) as Hs.
  assert (Hl : days_before_year y - days_before_year (y - 1) >= 365)
    by (destruct (is_leap y); lia).
  rewrite (days_from_civil_low y 1), (days_from_civil_low (y + 1) 1) by lia.
  replace (y + 1 - 1) with y by lia.
  destruct (Z.leb_spec m 2) as [H2|H2].
  - rewrite days_from_civil_low by lia.
    assert (m = 1 \/ m = 2) as [-> | ->] by lia; mp_eval; lia.
  - rewrite days_from_civil_high by lia.
    assert (Hb : 0 <= doy_of_mp (m - 3) <= 275).
    { assert (Hk : 0 <= m - 3 < 10) by lia. revert Hk.
      generalize (m - 3). intros k Hk. twelve k; mp_eval; lia. }
    mp_eval. lia.
Qed.

End CivilFacts.
Import CivilFacts.

(** ** Rounding a reading down to a unit *)

(** A map that is constant on blocks [[f n, b)] around every point rounds
    down. *)
Lemma floor_like_of_blocks (f : Z -> Z) :
  (forall n, exists b, f n <= n < b /\ forall k, f n <= k < b -> f k = f n) ->
  floor_like f.
Proof.
  intros Hb. repeat split.
  - intros n. destruct (Hb n) as (b & H & _). lia.
  - intros n. destruct (Hb n) as (b & H & Hk). apply Hk. lia.
  - intros a c Hac.
    destruct (Hb a) as (ba & Ha & Hka). destruct (Hb c) as (bc & Hc & Hkc).
    destruct (Z_lt_le_dec c ba) as [Hlt|Hge].
    + rewrite (Hka c); lia.
    + destruct (Z_le_gt_dec (f a) (f c)) as [Hle|Hgt]; [exact Hle|].
      assert (f (f a) = f c) by (apply Hkc; lia).
      assert (f (f a) = f a) by (apply Hka; lia).
      lia.
Qed.

Lemma floorDays_week_blocks n :
  exists b, floorDays Week n <= n < b /\
            forall k, floorDays Week n <= k < b -> floorDays Week k = floorDays Week n.
Proof.
  exists (floorDays Week n + 7). unfold floorDays, Civil.weekday_of_days.
  split; [zdiv|]. intros k Hk. zdiv.
Qed.

Lemma floorDays_month_blocks n :
  exists b, floorDays Month n <= n < b /\
            forall k, floorDays Month n <= k < b -> floorDays Month k = floorDays Month n.
Proof.
  pose proof (days_from_civil_from_days n) as Hr.
  pose proof (civil_from_days_valid n) as Hv. cbv zeta in Hr.
  destruct (Civil.civil_from_days n) as [y m d] eqn:E.
  cbn [Civil.year Civil.month Civil.day] in Hr.
  destruct Hv as [Hm Hd]. cbn [Civil.year Civil.month Civil.day] in Hm, Hd.
  unfold floorDays at 1 2 4. rewrite E. cbn [Civil.year Civil.month].
  rewrite days_from_civil_day in Hr.
  exists (Civil.days_from_civil y m 1 + Civil.days_in_month y m).
  split; [lia|]. intros k Hk.
  set (a := Civil.days_from_civil y m 1) in *.
  assert (Hkc : Civil.civil_from_days k = Civil.mkDate y m (k - a + 1)).
  { replace k with (Civil.days_from_civil y m (k - a + 1))  at 1
      by (rewrite days_from_civil_day; fold a; lia).
    apply civil_from_days_from_civil. split; cbn [Civil.year Civil.month Civil.day]; lia. }
  unfold floorDays. rewrite Hkc. reflexivity.
Qed.

Lemma civil_year_block n :
  let y := Civil.year (Civil.civil_from_days n) in
  Civil.days_from_civil y 1 1 <= n < Civil.days_from_civil (y + 1) 1 1.
Proof.
  pose proof (days_from_civil_from_days n) as Hr.
  pose proof (civil_from_days_valid n) as Hv. cbv zeta in Hr.
  destruct (Civil.civil_from_days n) as [y m d].
  cbn [Civil.year Civil.month Civil.day] in *.
  rewrite <- Hr. apply year_block. exact Hv.
Qed.

Lemma civil_year_unique n y :
  Civil.days_from_civil y 1 1 <= n < Civil.days_from_civil (y + 1) 1 1 ->
  Civil.year (Civil.civil_from_days n) = y.
Proof.
  intros H. pose proof (civil_year_block n) as Hb. cbv zeta in Hb.
  set (yn := Civil.year (Civil.civil_from_days n)) in *.
  destruct (Z.lt_trichotomy yn y) as [Hlt|[Heq|Hgt]]; [|exact Heq|].
  - pose proof (jan1_mono (yn + 1) y). lia.
  - pose proof (jan1_mono (y + 1) yn). lia.
Qed.

Lemma floorDays_year_blocks n :
  exists b, floorDays Year n <= n < b /\
            forall k, floorDays Year n <= k < b -> floorDays Year k = floorDays Year n.
Proof.
  pose proof (civil_year_block n) as Hb. cbv zeta in Hb.
  unfold floorDays.
  set (y := Civil.year (Civil.civil_from_days n)) in *.
  exists (Civil.days_from_civil (y + 1) 1 1). split; [lia|].
  intros k Hk. rewrite (civil_year_unique k y Hk). reflexivity.
Qed.

Lemma floorDays_floor_like g : floor_like (floorDays g).
Proof.
  destruct g.
  - repeat split; cbn; intros; lia.
  - repeat split; cbn; intros; lia.
  - apply floor_like_of_blocks, floorDays_week_blocks.
  - apply floor_like_of_blocks, floorDays_month_blocks.
  - apply floor_like_of_blocks, floorDays_year_blocks.
Qed.

Lemma floorLocal_floor_like g : floor_like (floorLocal g).
Proof.
  destruct (floorDays_floor_like g) as (Hd & Hi & Hm).
  assert (Hgen : floor_like (fun L => floorDays g (L / MS_PER_DAY) * MS_PER_DAY)).
  { unfold MS_PER_DAY. repeat split.
    - intros L. specialize (Hd (L / 86400000)). zdiv.
    - intros L. f_equal.
      replace (floorDays g (L / 86400000) * 86400000 / 86400000)
        with (floorDays g (L / 86400000)) by (rewrite Z.div_mul; lia).
      apply Hi.
    - intros a b Hab.
      assert (a / 86400000 <= b / 86400000) by zdiv.
      specialize (Hm _ _ H). lia. }
  destruct g; try exact Hgen.
  unfold floorLocal, MS_PER_HOUR. repeat split.
  - intros L. zdiv.
  - intros L. rewrite Z.div_mul; lia.
  - intros a b Hab. zdiv.
Qed.

(** ** Zone tables *)

Ltac consts :=
  unfold SHIFT_MS, MIN_GAP, MAX_SHIFT, MS_PER_DAY, MS_PER_HOUR, MS_PER_MINUTE in *.

Lemma wf_transitions_cons prev o T o' r :
  wf_transitions prev o ((T, o') :: r) = true ->
  match prev with None => True | Some p => p + MIN_GAP <= T end /\
  Z.abs (o' - o) < MAX_SHIFT /\ wf_transitions (Some T) o' r = true.
Proof.
  cbn [wf_transitions]. rewrite !andb_true_iff. intros [[H1 H2] H3].
  repeat split; [|apply Z.ltb_lt; exact H2|exact H3].
  destruct prev; [apply Z.leb_le; exact H1|exact I].
Qed.

(** Within a regime that starts at [lo], readings never fall below the
    reading at [lo]. *)
Lemma offsetFrom_regime l : forall lo o t,
  wf_transitions (Some lo) o l = true -> lo <= t ->
  lo + o * MS_PER_MINUTE <= t + offsetFrom o l t * MS_PER_MINUTE.
Proof.
  induction l as [|[T o'] r IH]; intros lo o t Hwf Ht; cbn [offsetFrom].
  - lia.
  - apply wf_transitions_cons in Hwf as (Hgap & Hsh & Hr).
    destruct (Z.ltb_spec t T) as [Hlt|Hge]; [lia|].
    specialize (IH T o' t Hr Hge). consts. lia.
Qed.






(** [fromLocalFrom] finds the least instant of its regimes whose reading has
    reached [L]; the reading found overshoots [L] only at a forward shift,
    and then no later reading is smaller. *)
Lemma fromLocalFrom_spec l : forall lo o L,
  wf_transitions lo o l = true ->
  match lo with None => True | Some b => b + o * MS_PER_MINUTE < L + SHIFT_MS end ->
  let s := fromLocalFrom lo o l L in
  let rd := fun t => t + offsetFrom o l t * MS_PER_MINUTE in
  match lo with None => True | Some b => b <= s end /\
  L <= rd s < L + SHIFT_MS /\
  (forall t, match lo with None => True | Some b => b <= t end -> t < s -> rd t < L) /\
  (rd s = L \/ forall t, s <= t -> rd s <= rd t).
Proof.
  induction l as [|[T o'] r IH]; intros lo o L Hwf Hinv; cbn zeta;
    cbn [fromLocalFrom offsetFrom].
  - destruct lo as [b|].
    + split; [lia|]. split; [consts; lia|]. split.
      * intros t Hb Ht. lia.
      * destruct (Z_le_gt_dec b (L - o * MS_PER_MINUTE)); [left|right; intros]; lia.
    + split; [exact I|]. split; [consts; lia|]. split.
      * intros t _ Ht. lia.
      * left. lia.
  - pose proof Hwf as Hwf0.
    apply wf_transitions_cons in Hwf as (Hgap & Hsh & Hr).
    set (c := match lo with
              | None => L - o * MS_PER_MINUTE
              | Some b => Z.max b (L - o * MS_PER_MINUTE)
              end).
    assert (Hc : L - o * MS_PER_MINUTE <= c) by (subst c; destruct lo; lia).
    assert (Hcb : match lo with None => True | Some b => b <= c end)
      by (subst c; destruct lo; [lia|exact I]).
    assert (Hcc : c = L - o * MS_PER_MINUTE \/
                  match lo with None => False | Some b => c = b end)
      by (subst c; destruct lo; [lia|left; reflexivity]).
    destruct (Z.ltb_spec c T) as [HcT|HcT].
    + (* the reading is reached in the current regime *)
      replace (c <? T) with true by (symmetry; apply Z.ltb_lt; exact HcT).
      split; [exact Hcb|]. split.
      { destruct Hcc as [->|Hcc]; [consts; lia|].
        destruct lo as [b|]; [|contradiction]. subst c. rewrite Hcc in *. consts. lia. }
      split.
      { intros t Hb Ht. replace (t <? T) with true by (symmetry; apply Z.ltb_lt; lia).
        destruct lo as [b|]; subst c; lia. }
      destruct Hcc as [Hcc|Hcc]; [left; lia|right].
      destruct lo as [b|]; [|contradiction].
      intros t Ht. pose proof (offsetFrom_regime _ b o t Hwf0) as Hreg.
      cbn [offsetFrom] in Hreg. rewrite Hcc in *. apply Hreg. lia.
    + (* it lies in a later regime *)
      assert (HcL : c = L - o * MS_PER_MINUTE).
      { destruct Hcc as [Hcc|Hcc]; [exact Hcc|].
        destruct lo as [b|]; [|contradiction]. consts. lia. }
      assert (Hinv' : T + o' * MS_PER_MINUTE < L + SHIFT_MS) by (consts; lia).
      specialize (IH (Some T) o' L Hr Hinv'). cbn zeta in IH.
      destruct IH as (Hs & Hrd & Hleast & Hmono).
      set (s := fromLocalFrom (Some T) o' r L) in *.
      replace (s <? T) with false by (symmetry; apply Z.ltb_ge; exact Hs).
      split; [destruct lo; [consts; lia|exact I]|].
      split; [exact Hrd|]. split.
      { intros t Hb Ht. destruct (Z.ltb_spec t T) as [HtT|HtT].
        - lia.
        - apply Hleast; assumption. }
      destruct Hmono as [Hm|Hm]; [left; exact Hm|right].
      intros t Ht. replace (t <? T) with false by (symmetry; apply Z.ltb_ge; lia).
      apply Hm. exact Ht.
Qed.

Section ZoneFacts.

Variable z : Zone.
Hypothesis Hwf : wf_zone z = true.





Lemma fromLocal_spec L :
  let s := fromLocal z L in
  L <= localTS z s < L + SHIFT_MS /\
  (forall t, t < s -> localTS z t < L) /\
  (localTS z s = L \/ forall t, s <= t -> localTS z s <= localTS z t).
Proof.
  pose proof (fromLocalFrom_spec (transitions z) None (baseOffset z) L Hwf I) as H.
  cbn zeta in H. destruct H as (_ & H1 & H2 & H3).
  repeat split; try apply H1; [|exact H3].
  intros t Ht. apply H2; [exact I|exact Ht].
Qed.

Lemma fromLocal_le L t : L <= localTS z t -> fromLocal z L <= t.
Proof.
  intros H. destruct (fromLocal_spec L) as (_ & Hl & _).
  destruct (Z_le_gt_dec (fromLocal z L) t) as [Hle|Hgt]; [exact Hle|].
  specialize (Hl t). lia.
Qed.

Lemma resolve_reading L o :
  L <= localTS z (resolve z L o) < L + SHIFT_MS.
Proof.
  unfold resolve. cbv zeta.
  destruct (Z.eqb_spec (offset z (L - o * MS_PER_MINUTE)) o) as [He|Hne].
  - unfold localTS. rewrite He. consts. lia.
  - apply fromLocal_spec.
Qed.

End ZoneFacts.

(** Resolving an instant's own reading with its own offset is the identity
    (in any zone table). *)
Lemma resolve_own z t : resolve z (localTS z t) (offset z t) = t.
Proof.
  unfold resolve, localTS. cbv zeta.
  replace (t + offset z t * MS_PER_MINUTE - offset z t * MS_PER_MINUTE) with t by lia.
  rewrite Z.eqb_refl. reflexivity.
Qed.

(** ** Zoned instants *)

Lemma local_split x : DT.localDay x * MS_PER_DAY + DT.timeOfDay x = DT.local x.
Proof. unfold DT.localDay, DT.timeOfDay. consts. zdiv. Qed.

Lemma withLocal_own x : DT.withLocal x (DT.local x) = x.
Proof.
  unfold DT.withLocal, DT.local, DT.offset. rewrite resolve_own.
  destruct x; reflexivity.
Qed.

Lemma zone_withLocal x L : zone (DT.withLocal x L) = zone x.
Proof. reflexivity. Qed.

Lemma zone_startOf g x : zone (startOf g x) = zone x.
Proof. reflexivity. Qed.


(** A duration without years and months moves the day number by its weeks
    and days. *)
Lemma shiftDays_days d n : years d = 0 -> months d = 0 ->
  shiftDays d n = n + weeks d * 7 + days d.
Proof.
  intros Hy Hm. unfold shiftDays. cbv zeta. rewrite Hy, Hm.
  pose proof (days_from_civil_from_days n) as Hr.
  pose proof (civil_from_days_valid n) as Hv. cbv zeta in Hr.
  destruct (Civil.civil_from_days n) as [y m dd].
  destruct Hv as [Hvm Hvd]. cbn [Civil.year Civil.month Civil.day] in *.
  replace (((y + 0) * 12 + (m - 1) + 0) / 12) with y by zdiv.
  replace (((y + 0) * 12 + (m - 1) + 0) mod 12 + 1) with m by zdiv.
  rewrite Z.min_l by lia. lia.
Qed.


(** Adding a duration of clock units moves the instant by its length. *)
Lemma plus_clock x d :
  years d = 0 -> months d = 0 -> weeks d = 0 -> days d = 0 ->
  plus x d = mkDateTime (ts x + timeMillis d) (zone x).
Proof.
  intros Hy Hm Hw Hd. unfold plus. cbv zeta.
  rewrite shiftDays_days by assumption. rewrite Hw, Hd.
  replace (DT.localDay x + 0 * 7 + 0) with (DT.localDay x) by lia.
  rewrite local_split, withLocal_own. reflexivity.
Qed.

(** Adding whole days and weeks re-reads the wall clock that many days on. *)
Lemma plus_days x d :
  years d = 0 -> months d = 0 ->
  ts (plus x d) =
  resolve (zone x) (DT.local x + (weeks d * 7 + days d) * MS_PER_DAY) (DT.offset x)
  + timeMillis d.
Proof.
  intros Hy Hm. unfold plus. cbv zeta. rewrite shiftDays_days by assumption.
  cbn [ts DT.withLocal]. f_equal. f_equal.
  pose proof (local_split x). lia.
Qed.

Section StartOf.

Variable x : DateTime.
Hypothesis Hwf : wf_zone (zone x) = true.

Lemma startOf_reading g :
  floorLocal g (DT.local x) <= DT.local (startOf g x)
  < floorLocal g (DT.local x) + SHIFT_MS.
Proof. unfold startOf, DT.withLocal, DT.local at 2 4. cbn [ts zone]. apply resolve_reading, Hwf. Qed.

Lemma startOf_le g : ts (startOf g x) <= ts x.
Proof.
  destruct (floorLocal_floor_like g) as (Hd & _ & _).
  unfold startOf, DT.withLocal, resolve. cbn [ts]. cbv zeta.
  match goal with |- context [if ?a =? ?b then _ else _] =>
    destruct (Z.eqb_spec a b) as [He|Hne] end.
  - specialize (Hd (DT.local x)). unfold DT.local, DT.offset, localTS in *. lia.
  - apply fromLocal_le; [exact Hwf|apply Hd].
Qed.

(** Resolving the unit's starting reading again, from the start found,
    finds the same instant. *)
Lemma startOf_stable g :
  let L := floorLocal g (DT.local x) in
  let s := startOf g x in
  floorLocal g (DT.local s) = L /\ resolve (zone x) L (DT.offset s) = ts s.
Proof.
  destruct (floorLocal_floor_like g) as (Hd & Hi & Hm).
  intros L s.
  assert (HL : L <= DT.local x) by apply Hd.
  assert (HLL : floorLocal g L = L) by apply Hi.
  assert (Hts : ts s = resolve (zone x) L (DT.offset x)) by reflexivity.
  assert (Hloc : DT.local s = localTS (zone x) (ts s)) by reflexivity.
  assert (Hoff : DT.offset s = offset (zone x) (ts s)) by reflexivity.
  clearbody s. unfold resolve in Hts. cbv zeta in Hts.
  destruct (Z.eqb_spec (offset (zone x) (L - DT.offset x * MS_PER_MINUTE)) (DT.offset x))
    as [He|Hne].
  - (* the reading exists under the anchor's offset *)
    assert (Hos : DT.offset s = DT.offset x) by (rewrite Hoff, Hts; exact He).
    assert (Hls : DT.local s = L)
      by (rewrite Hloc; unfold localTS; rewrite <- Hoff, Hos, Hts; lia).
    split; [rewrite Hls; exact HLL|].
    unfold resolve. cbv zeta. rewrite Hos, He, Z.eqb_refl. symmetry. exact Hts.
  - (* the earliest instant reaching the reading *)
    destruct (fromLocal_spec (zone x) Hwf L) as (Hrd & Hleast & Hjump).
    cbv zeta in Hrd, Hleast, Hjump. rewrite <- Hts in Hrd, Hleast, Hjump.
    rewrite <- Hloc in Hrd, Hjump.
    assert (Hsx : ts s <= ts x)
      by (rewrite Hts; apply fromLocal_le; [exact Hwf|exact HL]).
    split.
    + destruct Hjump as [Heq|Hlater]; [rewrite Heq; exact HLL|].
      specialize (Hlater (ts x) Hsx).
      pose proof (Hm _ _ (proj1 Hrd)) as H1.
      pose proof (Hm _ _ Hlater) as H2.
      rewrite HLL in H1. change (floorLocal g (localTS (zone x) (ts x))) with L in H2.
      lia.
    + unfold resolve. cbv zeta.
      destruct (Z.eqb_spec (offset (zone x) (L - DT.offset s * MS_PER_MINUTE)) (DT.offset s))
        as [He'|Hne']; [|symmetry; exact Hts].
      set (g' := L - DT.offset s * MS_PER_MINUTE) in *.
      assert (Hg' : localTS (zone x) g' = L)
        by (unfold localTS; rewrite He'; subst g'; lia).
      assert (Hge : ~ g' < ts s) by (intros Hlt; specialize (Hleast g' Hlt); lia).
      assert (Hle : g' <= ts s).
      { subst g'. rewrite Hloc in Hrd. unfold localTS in Hrd.
        rewrite <- Hoff in Hrd. lia. }
      lia.
Qed.

(** The start of a unit is its own start. *)
Lemma startOf_idem g : startOf g (startOf g x) = startOf g x.
Proof.
  destruct (startOf_stable g) as [Hfl Hres]. cbv zeta in Hfl, Hres.
  unfold startOf at 1. rewrite Hfl.
  unfold DT.withLocal. rewrite zone_startOf, Hres.
  reflexivity.
Qed.

End StartOf.

(** ** The example: grid columns, weekend test, reducer, granularities *)

Lemma weekday_range n : 1 <= Civil.weekday_of_days n <= 7.
Proof. unfold Civil.weekday_of_days. zdiv. Qed.

(** C3: in both month grids the first rendered day is put in column
    weekday + 1 for ISO weekdays 1 to 6 and in column 0 for weekday 7; the
    other days get no column. *)
Theorem gridColumn_first_day (day : Interval) :
  let w := DT.weekday (start day) in
  ((1 <= w <= 6 /\
    CalendarMonth_gridColumn 0 day = Some (w + 1) /\
    CalendarMiniMonth_gridColumn 0 day = Some (w + 1))
   \/
   (w = 7 /\
    CalendarMonth_gridColumn 0 day = Some 0 /\
    CalendarMiniMonth_gridColumn 0 day = Some 0))
  /\ (forall i, CalendarMonth_gridColumn (S i) day = None
                /\ CalendarMiniMonth_gridColumn (S i) day = None).
Proof.
  intros w. split; [|intros i; split; reflexivity].
  unfold CalendarMonth_gridColumn, CalendarMiniMonth_gridColumn. cbv zeta.
  fold w. cbn [Nat.eqb].
  pose proof (weekday_range (DT.localDay (start day))) as Hr.
  change (Civil.weekday_of_days (DT.localDay (start day))) with w in Hr.
  destruct (Z.eqb_spec w 7) as [H7|H7]; [right|left]; repeat split; auto; lia.
Qed.

(** C8: [isWeekend] holds exactly on ISO weekdays 6 and 7, that is when the
    weekday exceeds 5, which is also the test of the month grid. *)
Theorem isWeekend_saturday_sunday (x : DateTime) :
  isWeekend x = (DT.weekday x =? 6) || (DT.weekday x =? 7)
  /\ isWeekend x = (DT.weekday x >? 5)
  /\ (forall day, CalendarMonth_weekendClass day = isWeekend (start day)).
Proof.
  assert (H : forall y, isWeekend y = (DT.weekday y >? 5)).
  { intros y. unfold isWeekend, weekendDays. cbn [existsb].
    pose proof (weekday_range (DT.localDay y)) as Hr.
    change (Civil.weekday_of_days (DT.localDay y)) with (DT.weekday y) in Hr.
    destruct (Z.eqb_spec (DT.weekday y) 6); destruct (Z.eqb_spec (DT.weekday y) 7);
      destruct (Z.gtb_spec (DT.weekday y) 5); cbn; try reflexivity; lia. }
  repeat split.
  - unfold isWeekend, weekendDays. cbn [existsb]. rewrite orb_false_r. reflexivity.
  - apply H.
  - intros day. unfold CalendarMonth_weekendClass. symmetry. apply H.
Qed.

Lemma viewOfInterval_view x v :
  viewOfInterval x (viewName v) =
  Ok (viewOfIntervalG x match v with
                        | ViewDay => Day | ViewWeek => Week
                        | ViewMonth => Month | ViewYear => Year
                        end).
Proof. destruct v; reflexivity. Qed.

(** C10: [set.view] keeps the anchor, [set.datetime] keeps the view, and any
    other action returns the state as it is. *)
Theorem reducer_frame (st : CalendarState) :
  (forall v, exists i, reducer st (SetView v) = Ok (mkState v (datetime st) i))
  /\ (forall d, exists i, reducer st (SetDatetime d) = Ok (mkState (view st) d i))
  /\ (forall ty, reducer st (OtherAction ty) = Ok st).
Proof.
  repeat split.
  - intros v. unfold reducer. rewrite viewOfInterval_view. eexists. reflexivity.
  - intros d. unfold reducer. rewrite viewOfInterval_view. eexists. reflexivity.
Qed.

(** Every declared action leaves view, anchor and window consistent,
    whatever the state before. *)
Lemma reducer_consistent st a st' :
  reducer st a = Ok st' ->
  (exists v, a = SetView v) \/ (exists d, a = SetDatetime d) ->
  consistent st'.
Proof.
  intros Hr [[v ->]|[d ->]]; unfold reducer in Hr;
    rewrite viewOfInterval_view in Hr; cbn [bind] in Hr;
    injection Hr as <-; unfold consistent; cbn [datetime view interval];
    apply viewOfInterval_view.
Qed.

(** With a single clock reading the initial state is consistent. *)
Lemma initialState_consistent_one_reading now : consistent (initialState now now).
Proof. reflexivity. Qed.

(** By the letter of §3 and §7 the plural units the example passes are no
    granularities: read that way, the lists of the mini month and of the
    year view are failures.  The library that decides it is not among the
    sources. *)
Lemma example_plural_units_fail :
  (forall month, CalendarMiniMonth_days month = Err UnsupportedGranularity)
  /\ (forall datetime, CalendarYear_months datetime = Err UnsupportedGranularity).
Proof. split; intros; reflexivity. Qed.

(** C7: re-anchoring a view window at its own start gives the same
    window. *)
Theorem viewOfInterval_fixpoint (x : DateTime) (granularity : string) (i : Interval) :
  wf_zone (zone x) = true ->
  viewOfInterval x granularity = Ok i ->
  viewOfInterval (start i) granularity = Ok i.
Proof.
  intros Hwf. unfold viewOfInterval.
  destruct (parseGranularity granularity) as [g|]; [|discriminate].
  intros H. injection H as <-. f_equal.
  unfold viewOfIntervalG. cbv zeta. cbn [start].
  rewrite (startOf_idem x Hwf g). reflexivity.
Qed.

Lemma viewOfInterval_fixpoint_witness :
  let x := localDateTime newYork 2021 3 14 12 0 in
  viewOfInterval (start (viewOfIntervalG x Month)) "month"
  = Ok (viewOfIntervalG x Month).
Proof.
  intros x. apply (viewOfInterval_fixpoint x "month"); reflexivity.
Defined.

(** ** The example: day columns *)

(** C4: the initial state reads the clock once for the anchor and once for
    the window; readings on either side of a week boundary give a window
    that is not the week of the anchor. *)
Theorem initialState_two_readings :
  let now1 := mkDateTime (Civil.days_from_civil 2021 3 15 * MS_PER_DAY - 1) utc in
  let now2 := mkDateTime (Civil.days_from_civil 2021 3 15 * MS_PER_DAY) utc in
  ~ consistent (initialState now1 now2).
Proof.
  intros now1 now2 H. unfold consistent in H. vm_compute in H. discriminate H.
Qed.

Lemma transitionFree_offsetFrom l : forall o a b t,
  forallb (fun tr => (fst tr <=? a) || (b <? fst tr)) l = true ->
  a <= t <= b -> offsetFrom o l t = offsetFrom o l a.
Proof.
  induction l as [|[T o'] r IH]; intros o a b t Hf Ht; cbn [offsetFrom]; [reflexivity|].
  cbn [forallb fst] in Hf. apply andb_true_iff in Hf as [H1 H2].
  apply orb_true_iff in H1 as [H1|H1].
  - apply Z.leb_le in H1.
    replace (t <? T) with false by (symmetry; apply Z.ltb_ge; lia).
    replace (a <? T) with false by (symmetry; apply Z.ltb_ge; lia).
    eapply IH; eauto.
  - apply Z.ltb_lt in H1.
    replace (t <? T) with true by (symmetry; apply Z.ltb_lt; lia).
    replace (a <? T) with true by (symmetry; apply Z.ltb_lt; lia).
    reflexivity.
Qed.

Lemma transitionFree_offset z a b t :
  transitionFree z a b = true -> a <= t <= b -> offset z t = offset z a.
Proof. intros H Ht. unfold offset. eapply transitionFree_offsetFrom; eauto. Qed.

(** A day without transition lasts twenty-four hours. *)
Lemma dayOf_length x :
  let s := start (dayOf x) in
  transitionFree (zone x) (ts s) (ts s + MS_PER_DAY) = true ->
  ts (end_ (dayOf x)) = ts s + MS_PER_DAY.
Proof.
  intros s Hfree. unfold dayOf, viewOfIntervalG in *. cbv zeta in *.
  cbn [start end_] in *. subst s.
  assert (Hz : zone (startOf Day x) = zone x) by reflexivity.
  generalize dependent (startOf Day x). intros s Hfree Hz.
  rewrite plus_days by reflexivity.
  cbn [ofUnit weeks days timeMillis hours minutes].
  unfold resolve. cbv zeta. rewrite Hz.
  replace (DT.local s + (0 * 7 + 1) * MS_PER_DAY - DT.offset s * MS_PER_MINUTE)
    with (ts s + MS_PER_DAY) by (unfold DT.local, DT.offset, localTS; rewrite Hz; consts; lia).
  rewrite (transitionFree_offset (zone x) (ts s) (ts s + MS_PER_DAY)) by (auto; consts; lia).
  unfold DT.offset. rewrite Hz, Z.eqb_refl. unfold timeMillis. cbn [hours minutes]. consts. lia.
Qed.

(** The loop of [splitBy] over a span of [n] whole clock steps makes [n]
    segments. *)
Lemma splitBy_loop_exact dur : 
  years dur = 0 -> months dur = 0 -> weeks dur = 0 -> days dur = 0 ->
  0 < timeMillis dur ->
  forall n fuel s e,
  ts e = ts s + Z.of_nat n * timeMillis dur -> (n <= fuel)%nat ->
  exists l, splitBy_loop fuel dur s e = Ok l /\ List.length l = n.
Proof.
  intros Hy Hm Hw Hd Hpos. induction n as [|k IH]; intros fuel s e He Hf.
  - exists []. split; [|reflexivity].
    destruct fuel; cbn [splitBy_loop];
      replace (ts s <? ts e) with false by (symmetry; apply Z.ltb_ge; lia);
      reflexivity.
  - destruct fuel as [|f]; [lia|]. cbn [splitBy_loop].
    replace (ts s <? ts e) with true by (symmetry; apply Z.ltb_lt; nia).
    rewrite (plus_clock s dur Hy Hm Hw Hd). cbn [ts].
    replace (ts e <? ts s + timeMillis dur) with false
      by (symmetry; apply Z.ltb_ge; nia).
    destruct (IH f (mkDateTime (ts s + timeMillis dur) (zone s)) e) as (l & Hl & Hlen).
    + cbn [ts]. lia.
    + lia.
    + rewrite Hl. cbn [bind]. eexists. split; [reflexivity|]. cbn [List.length]. lia.
Qed.

Lemma viewOfInterval_day x : viewOfInterval x "day" = Ok (dayOf x).
Proof. reflexivity. Qed.

(** A day without transition splits into 48 half hours. *)
Lemma dayOf_split_48 (x : DateTime) :
  transitionFree (zone x) (ts (start (dayOf x)))
                 (ts (start (dayOf x)) + MS_PER_DAY) = true ->
  exists l, splitBy (dayOf x) (ofMinutes 30) = Ok l /\ List.length l = 48%nat.
Proof.
  intros Hfree. pose proof (dayOf_length x Hfree) as Hlen. cbv zeta in Hlen.
  unfold splitBy, Iv.isValid.
  replace (ts (start (dayOf x)) <=? ts (end_ (dayOf x))) with true
    by (symmetry; apply Z.leb_le; rewrite Hlen; consts; lia).
  change (asMilliseconds (ofMinutes 30) =? 0) with false. cbn [negb orb].
  apply (splitBy_loop_exact (ofMinutes 30) eq_refl eq_refl eq_refl eq_refl eq_refl).
  - rewrite Hlen. reflexivity.
  - unfold loopBound, Iv.length_ms. rewrite Hlen.
    replace (ts (start (dayOf x)) + MS_PER_DAY - ts (start (dayOf x)))
      with MS_PER_DAY by lia.
    apply Nat.leb_le. vm_compute. reflexivity.
Qed.

(** On a day without transition [CalendarDay] draws the day's own 48
    segments. *)
Lemma CalendarDay_own_day (day : Interval) :
  transitionFree (zone (start day)) (ts (start (dayOf (start day))))
                 (ts (start (dayOf (start day))) + MS_PER_DAY) = true ->
  CalendarDay_segments day = segmentationOf (start day)
  /\ segmentCount (CalendarDay_segments day) = Some 48.
Proof.
  intros Hfree. destruct (dayOf_split_48 (start day) Hfree) as (l & Hl & Hn).
  unfold CalendarDay_segments, segmentationOf. rewrite !viewOfInterval_day.
  cbn [bind]. rewrite Hl. cbn [bind]. rewrite Hn.
  change (Z.of_nat 48 =? 48) with true. cbn [negb segmentCount].
  rewrite Hn. split; reflexivity.
Qed.

(** C2: the half-hour split of the day view has 46 segments on 2021-03-14
    and 50 on 2021-11-07 in New York, and 48 on every day without
    transition. *)
Theorem splitBy_half_hours_of_day :
  segmentCount (splitBy (dayOf (localDateTime newYork 2021 3 14 12 0)) (ofMinutes 30))
  = Some 46
  /\ segmentCount (splitBy (dayOf (localDateTime newYork 2021 11 7 12 0)) (ofMinutes 30))
     = Some 50
  /\ (forall x : DateTime,
        transitionFree (zone x) (ts (start (dayOf x)))
                       (ts (start (dayOf x)) + MS_PER_DAY) = true ->
        segmentCount (splitBy (dayOf x) (ofMinutes 30)) = Some 48).
Proof.
  split; [vm_compute; reflexivity|]. split; [vm_compute; reflexivity|].
  intros x Hfree. destruct (dayOf_split_48 x Hfree) as (l & Hl & Hn).
  rewrite Hl. cbn [segmentCount]. rewrite Hn. reflexivity.
Qed.

Lemma splitBy_half_hours_of_day_witness :
  segmentCount (splitBy (dayOf (localDateTime newYork 2021 6 1 12 0)) (ofMinutes 30))
  = Some 48.
Proof.
  apply (proj2 (proj2 splitBy_half_hours_of_day)
           (localDateTime newYork 2021 6 1 12 0)).
  vm_compute. reflexivity.
Defined.

(** C1: what [CalendarDay] draws is the day's own half-hour segmentation
    when that has 48 segments, and otherwise the segmentation of the day
    two calendar days earlier. *)
Theorem CalendarDay_segments_spec (day : Interval) (segs : list Interval) :
  segmentationOf (start day) = Ok segs ->
  (Z.of_nat (List.length segs) = 48 -> CalendarDay_segments day = Ok segs)
  /\ (Z.of_nat (List.length segs) <> 48 ->
      CalendarDay_segments day = segmentationOf (minus (start day) (ofDays 2))).
Proof.
  unfold segmentationOf, CalendarDay_segments. rewrite !viewOfInterval_day.
  cbn [bind]. intros ->. cbn [bind]. split; intros H.
  - rewrite H. reflexivity.
  - replace (Z.of_nat (List.length segs) =? 48) with false
      by (symmetry; apply Z.eqb_neq; exact H).
    reflexivity.
Qed.

Lemma CalendarDay_segments_spec_witness :
  let day := dayOf (localDateTime newYork 2021 3 14 12 0) in
  CalendarDay_segments day = segmentationOf (minus (start day) (ofDays 2)).
Proof.
  intros day.
  destruct (segmentationOf (start day)) as [segs|e] eqn:E;
    [|vm_compute in E; discriminate E].
  apply (proj2 (CalendarDay_segments_spec day segs E)).
  assert (H : segmentCount (segmentationOf (start day)) = Some 46)
    by (vm_compute; reflexivity).
  rewrite E in H. cbn [segmentCount] in H. injection H as H. lia.
Defined.

(** On the spring-forward day the column shows 48 segments, those of
    2021-03-12, and not the 46 segments of the day itself. *)
Lemma CalendarDay_substitutes_other_day :
  let day := dayOf (localDateTime newYork 2021 3 14 12 0) in
  segmentCount (segmentationOf (start day)) = Some 46
  /\ CalendarDay_segments day <> segmentationOf (start day)
  /\ CalendarDay_segments day = segmentationOf (localDateTime newYork 2021 3 12 0 0).
Proof.
  intros day. split; [vm_compute; reflexivity|]. split.
  - intros H. apply (f_equal segmentCount) in H. vm_compute in H. discriminate H.
  - vm_compute. reflexivity.
Qed.

(** ** The padded month *)

(** Day number of a reading that lies less than a day after a midnight. *)
Lemma day_of_reading n L : n * MS_PER_DAY <= L < n * MS_PER_DAY + MS_PER_DAY ->
  L / MS_PER_DAY = n.
Proof. intros H. consts. zdiv. Qed.

Lemma floorDays_month_civil n :
  let c := Civil.civil_from_days n in
  Civil.civil_from_days (floorDays Month n) = Civil.mkDate (Civil.year c) (Civil.month c) 1.
Proof.
  cbv zeta. unfold floorDays.
  pose proof (civil_from_days_valid n) as [Hm Hd].
  apply civil_from_days_from_civil. split; cbn [Civil.year Civil.month Civil.day]; [exact Hm|].
  pose proof (days_in_month_range (Civil.year (Civil.civil_from_days n))
                                  (Civil.month (Civil.civil_from_days n))). lia.
Qed.

Lemma floorDays_week_range n :
  n - 6 <= floorDays Week n <= n /\ Civil.weekday_of_days (floorDays Week n) = 1.
Proof. unfold floorDays, Civil.weekday_of_days. zdiv. Qed.

Lemma floorLocal_days g L : g <> Hour ->
  floorLocal g L = floorDays g (L / MS_PER_DAY) * MS_PER_DAY.
Proof. destruct g; intros H; [contradiction|reflexivity..]. Qed.

Lemma startOf_day_reading x g : wf_zone (zone x) = true -> g <> Hour ->
  floorDays g (DT.localDay x) * MS_PER_DAY <= DT.local (startOf g x)
  < floorDays g (DT.localDay x) * MS_PER_DAY + SHIFT_MS
  /\ DT.localDay (startOf g x) = floorDays g (DT.localDay x).
Proof.
  intros Hwf Hg. pose proof (startOf_reading x Hwf g) as H.
  rewrite floorLocal_days in H by exact Hg.
  split; [exact H|]. unfold DT.localDay. apply day_of_reading. consts. lia.
Qed.





(** ** The example: time-zone gutter *)







(** On the day Troll leaves its two-hour summer time the hour split has 26
    segments. *)
Lemma hour_split_can_exceed_25 :
  let now := localDateTime troll 2021 10 31 12 0 in
  wf_zone (zone now) = true
  /\ segmentCount (splitByUnit (dayOf now) "hour") = Some 26
  /\ ~ (forall segs, splitByUnit (dayOf now) "hour" = Ok segs ->
          Z.of_nat (List.length segs) <= 25).
Proof.
  intros now. split; [reflexivity|]. split; [vm_compute; reflexivity|].
  intros H.
  destruct (splitByUnit (dayOf now) "hour") as [segs|err] eqn:E;
    [|vm_compute in E; discriminate E].
  specialize (H segs eq_refl).
  assert (Hc : segmentCount (splitByUnit (dayOf now) "hour") = Some 26)
    by (vm_compute; reflexivity).
  rewrite E in Hc. cbn [segmentCount] in Hc. injection Hc as Hc. lia.
Qed.


(** ** The example: dispatching actions and the view selector *)

Lemma viewOfInterval_viewG x v :
  viewOfInterval x (viewName v) = Ok (viewOfIntervalG x (viewGranularity v)).
Proof. destruct v; reflexivity. Qed.

Lemma reducer_SetView st v :
  reducer st (SetView v)
  = Ok (mkState v (datetime st) (viewOfIntervalG (datetime st) (viewGranularity v))).
Proof. unfold reducer. rewrite viewOfInterval_viewG. reflexivity. Qed.

Lemma reducer_SetDatetime st d :
  reducer st (SetDatetime d)
  = Ok (mkState (view st) d (viewOfIntervalG d (viewGranularity (view st)))).
Proof. unfold reducer. rewrite viewOfInterval_viewG. reflexivity. Qed.

(** The state a series of actions leads to: the last view and the last
    anchor set, and the window of the two once one of them was set. *)
Lemma dispatchAll_closed_form actions : forall st,
  dispatchAll st actions =
  Ok (mkState (lastView (view st) actions) (lastDatetime (datetime st) actions)
        (if existsb isDeclared actions
         then viewOfIntervalG (lastDatetime (datetime st) actions)
                (viewGranularity (lastView (view st) actions))
         else interval st)).
Proof.
  induction actions as [|a rest IH]; intros st.
  - destruct st; reflexivity.
  - cbn [dispatchAll]. destruct a as [v|d|ty].
    + rewrite reducer_SetView. cbn [bind]. rewrite IH.
      cbn [view datetime interval lastView lastDatetime existsb isDeclared orb].
      destruct (existsb isDeclared rest) eqn:E; [reflexivity|].
      assert (Hv : lastView v rest = v /\ lastDatetime (datetime st) rest = datetime st).
      { clear IH. revert E. generalize (datetime st). generalize v.
        induction rest as [|b r IHr]; intros v0 d0 E; [split; reflexivity|].
        cbn [existsb] in E. apply orb_false_iff in E as [Eb Er].
        destruct b; try discriminate. cbn [lastView lastDatetime]. auto. }
      destruct Hv as [-> ->]. reflexivity.
    + rewrite reducer_SetDatetime. cbn [bind]. rewrite IH.
      cbn [view datetime interval lastView lastDatetime existsb isDeclared orb].
      destruct (existsb isDeclared rest) eqn:E; [reflexivity|].
      assert (Hv : lastView (view st) rest = view st /\ lastDatetime d rest = d).
      { clear IH. revert E. generalize d. generalize (view st).
        induction rest as [|b r IHr]; intros v0 d0 E; [split; reflexivity|].
        cbn [existsb] in E. apply orb_false_iff in E as [Eb Er].
        destruct b; try discriminate. cbn [lastView lastDatetime]. auto. }
      destruct Hv as [-> ->]. reflexivity.
    + cbn [reducer bind]. rewrite IH.
      cbn [lastView lastDatetime existsb isDeclared orb]. reflexivity.
Qed.

(** X1: from a consistent state every series of dispatched actions,
    declared or not, succeeds and ends in a consistent state. *)
Theorem dispatchAll_consistent (st : CalendarState) (actions : list CalendarAction) :
  consistent st ->
  exists st', dispatchAll st actions = Ok st' /\ consistent st'.
Proof.
  intros Hc. rewrite dispatchAll_closed_form. eexists. split; [reflexivity|].
  unfold consistent in *. cbn [view datetime interval].
  rewrite viewOfInterval_viewG. f_equal.
  destruct (existsb isDeclared actions) eqn:E; [reflexivity|].
  assert (Hv : lastView (view st) actions = view st
               /\ lastDatetime (datetime st) actions = datetime st).
  { revert E. generalize (datetime st). generalize (view st).
    induction actions as [|b r IHr]; intros v0 d0 E; [split; reflexivity|].
    cbn [existsb] in E. apply orb_false_iff in E as [Eb Er].
    destruct b; try discriminate. cbn [lastView lastDatetime]. auto. }
  destruct Hv as [-> ->].
  rewrite viewOfInterval_viewG in Hc. injection Hc as Hc. exact Hc.
Qed.

Lemma dispatchAll_consistent_witness :
  let now := localDateTime newYork 2021 3 14 12 0 in
  exists st',
    dispatchAll (initialState now now)
      [SetView ViewMonth; OtherAction "noop"; SetDatetime (localDateTime newYork 2021 11 7 9 0)]
    = Ok st' /\ consistent st'.
Proof.
  intros now. apply (dispatchAll_consistent (initialState now now)). reflexivity.
Defined.

(** X2: a series of actions never fails, and the state it leads to holds
    the payload of the last [set.view] and of the last [set.datetime] (the
    former view or anchor when there is none); once one of them occurred
    the window is the view window of that anchor and view, whatever the
    state before. *)
Theorem dispatchAll_last_write_wins (st : CalendarState) (actions : list CalendarAction) :
  exists st',
    dispatchAll st actions = Ok st'
    /\ view st' = lastView (view st) actions
    /\ datetime st' = lastDatetime (datetime st) actions
    /\ (if existsb isDeclared actions then consistent st'
        else interval st' = interval st).
Proof.
  rewrite dispatchAll_closed_form. eexists. split; [reflexivity|].
  cbn [view datetime interval]. repeat split.
  destruct (existsb isDeclared actions); [|reflexivity].
  unfold consistent. cbn [view datetime interval]. apply viewOfInterval_viewG.
Qed.

(** X3: [set.view] and [set.datetime] commute, and dispatching an action a
    second time changes nothing. *)
Theorem reducer_commutes_idempotent (st : CalendarState) (v : View) (d : DateTime) :
  dispatchAll st [SetView v; SetDatetime d] = dispatchAll st [SetDatetime d; SetView v]
  /\ dispatchAll st [SetView v; SetView v] = dispatchAll st [SetView v]
  /\ dispatchAll st [SetDatetime d; SetDatetime d] = dispatchAll st [SetDatetime d].
Proof. rewrite !dispatchAll_closed_form. repeat split. Qed.

(** X4: [CalendarViewSelect] marks exactly one of its four options as
    active, the one named by the current view; after the click of any
    option that option is the active one. *)
Theorem CalendarViewSelect_one_active (st : CalendarState) :
  map optionLabel (filter optionActive (CalendarViewSelect (view st)))
  = [viewName (view st)]
  /\ List.length (CalendarViewSelect (view st)) = 4%nat
  /\ (forall o, In o (CalendarViewSelect (view st)) ->
        exists st', reducer st (optionClick o) = Ok st'
                    /\ datetime st' = datetime st
                    /\ map optionLabel (filter optionActive (CalendarViewSelect (view st')))
                       = [optionLabel o]).
Proof.
  split; [destruct (view st); reflexivity|]. split; [reflexivity|].
  intros o Ho. unfold CalendarViewSelect, viewOptions in Ho. cbn [map] in Ho.
  assert (Hcase : exists v, optionClick o = SetView v /\ optionLabel o = viewName v).
  { destruct Ho as [<-|[<-|[<-|[<-|[]]]]]; eexists; split; reflexivity. }
  destruct Hcase as (v & Hclick & Hlabel).
  rewrite Hclick, Hlabel, reducer_SetView. eexists. split; [reflexivity|].
  cbn [view datetime]. split; [reflexivity|]. destruct v; reflexivity.
Qed.

(** ** The example: navigation *)

Lemma DateTime_eta x : mkDateTime (ts x) (zone x) = x.
Proof. destruct x; reflexivity. Qed.

(** When the target reading exists under the anchor's offset, adding a
    duration lands on it. *)
Lemma plus_guess x d :
  sameOffsetAfter x d = true ->
  plus x d =
  mkDateTime (ts x + (shiftDays d (DT.localDay x) - DT.localDay x) * MS_PER_DAY
              + timeMillis d) (zone x).
Proof.
  unfold sameOffsetAfter. intros H. apply Z.eqb_eq in H.
  unfold plus. cbv zeta. f_equal. f_equal.
  unfold DT.withLocal, resolve. cbn [ts]. cbv zeta.
  pose proof (local_split x) as Hs.
  assert (Hg : shiftDays d (DT.localDay x) * MS_PER_DAY + DT.timeOfDay x
               - DT.offset x * MS_PER_MINUTE
               = ts x + (shiftDays d (DT.localDay x) - DT.localDay x) * MS_PER_DAY).
  { unfold DT.local, localTS in Hs. fold (DT.offset x) in Hs.
    revert Hs. generalize (shiftDays d (DT.localDay x)) (DT.localDay x)
      (DT.timeOfDay x) (DT.offset x). intros. consts. lia. }
  rewrite Hg, H, Z.eqb_refl. reflexivity.
Qed.

Lemma shifted_fields x k :
  offset (zone x) (ts x + k * MS_PER_DAY) = DT.offset x ->
  let x' := mkDateTime (ts x + k * MS_PER_DAY) (zone x) in
  DT.offset x' = DT.offset x
  /\ DT.localDay x' = DT.localDay x + k
  /\ DT.timeOfDay x' = DT.timeOfDay x.
Proof.
  intros H x'. 
  assert (Ho : DT.offset x' = DT.offset x) by exact H.
  assert (Hl : DT.local x' = DT.local x + k * MS_PER_DAY).
  { unfold DT.local, localTS. cbn [ts zone x']. rewrite H.
    unfold DT.offset. lia. }
  split; [exact Ho|].
  unfold DT.localDay, DT.timeOfDay. rewrite Hl.
  generalize (DT.local x). intros L. consts. split; zdiv.
Qed.

Lemma timeMillis_negate d : timeMillis (negate d) = - timeMillis d.
Proof. unfold timeMillis. cbn [negate hours minutes]. consts. lia. Qed.

(** Taking a calendar duration away again returns to the anchor, when the
    dates come back and the offset is the same at both ends. *)
Lemma plus_minus x d :
  timeMillis d = 0 ->
  shiftDays (negate d) (shiftDays d (DT.localDay x)) = DT.localDay x ->
  sameOffsetAfter x d = true ->
  minus (plus x d) d = x.
Proof.
  intros Ht Hback Hoff.
  rewrite (plus_guess x d Hoff). rewrite Ht.
  set (k := shiftDays d (DT.localDay x) - DT.localDay x).
  replace (ts x + k * MS_PER_DAY + 0) with (ts x + k * MS_PER_DAY) by lia.
  assert (Hk : offset (zone x) (ts x + k * MS_PER_DAY) = DT.offset x)
    by (apply Z.eqb_eq; exact Hoff).
  destruct (shifted_fields x k Hk) as (Ho & Hd & Htod). cbv zeta in Ho, Hd, Htod.
  set (x' := mkDateTime (ts x + k * MS_PER_DAY) (zone x)) in *.
  assert (Hd' : DT.localDay x' = shiftDays d (DT.localDay x)) by (rewrite Hd; subst k; lia).
  unfold minus. rewrite plus_guess.
  - rewrite Hd', Hback.
    rewrite timeMillis_negate, Ht.
    transitivity (mkDateTime (ts x) (zone x)); [|apply DateTime_eta].
    cbn [ts zone x']. f_equal. subst k.
    generalize (shiftDays d (DT.localDay x)) (DT.localDay x) (ts x). intros.
    consts. lia.
  - unfold sameOffsetAfter. rewrite Hd', Hback, Ho. cbn [ts zone x'].
    apply Z.eqb_eq.
    replace (ts x + k * MS_PER_DAY
             + (DT.localDay x - shiftDays d (DT.localDay x)) * MS_PER_DAY)
      with (ts x) by (subst k; lia).
    reflexivity.
Qed.

(** Months and years come back from a day of the month that every month
    has. *)
Lemma shiftDays_back d n :
  weeks d = 0 -> days d = 0 -> Civil.day (Civil.civil_from_days n) <= 28 ->
  shiftDays (negate d) (shiftDays d n) = n
  /\ Civil.day (Civil.civil_from_days (shiftDays d n))
     = Civil.day (Civil.civil_from_days n).
Proof.
  intros Hw Hd H28.
  pose proof (days_from_civil_from_days n) as Hr.
  pose proof (civil_from_days_valid n) as Hv. cbv zeta in Hr.
  unfold shiftDays at 2 3. cbv zeta.
  destruct (Civil.civil_from_days n) as [y m dd] eqn:E.
  destruct Hv as [Hvm Hvd]. cbn [Civil.year Civil.month Civil.day] in *.
  set (mi := (y + years d) * 12 + (m - 1) + months d).
  pose proof (days_in_month_range (mi / 12) (mi mod 12 + 1)) as Hrg.
  rewrite Z.min_l by lia. rewrite Hw, Hd.
  replace (Civil.days_from_civil (mi / 12) (mi mod 12 + 1) dd + 0 * 7 + 0)
    with (Civil.days_from_civil (mi / 12) (mi mod 12 + 1) dd) by lia.
  assert (Hc : Civil.civil_from_days (Civil.days_from_civil (mi / 12) (mi mod 12 + 1) dd)
               = Civil.mkDate (mi / 12) (mi mod 12 + 1) dd).
  { apply civil_from_days_from_civil. split; cbn [Civil.year Civil.month Civil.day].
    - zdiv.
    - lia. }
  split; [|rewrite Hc; reflexivity].
  unfold shiftDays. cbv zeta. rewrite Hc. cbn [Civil.year Civil.month Civil.day negate years months weeks days].
  rewrite Hw, Hd.
  replace ((mi / 12 + - years d) * 12 + (mi mod 12 + 1 - 1) + - months d)
    with (y * 12 + (m - 1)) by (subst mi; zdiv).
  replace ((y * 12 + (m - 1)) / 12) with y by zdiv.
  replace ((y * 12 + (m - 1)) mod 12 + 1) with m by zdiv.
  rewrite Z.min_l by lia. lia.
Qed.

Lemma shiftDays_days_back d n : years d = 0 -> months d = 0 ->
  shiftDays (negate d) (shiftDays d n) = n.
Proof.
  intros Hy Hm. rewrite (shiftDays_days d n Hy Hm).
  rewrite shiftDays_days by (cbn [negate years months]; lia).
  cbn [negate weeks days]. lia.
Qed.

(** X5: after [next], [prev] returns to the same anchor: in the day and
    week views whenever the offset is the same at both ends, in the month
    and year views when moreover the day of the month is at most 28.  The
    wall-clock time is kept on the way. *)
Theorem CalendarNav_next_then_prev (view : View) (datetime : DateTime) :
  sameOffsetAfter datetime (ofUnit (viewGranularity view) 1) = true ->
  (view = ViewMonth \/ view = ViewYear -> DT.day datetime <= 28) ->
  exists d',
    CalendarNav_next view datetime = SetDatetime d'
    /\ DT.timeOfDay d' = DT.timeOfDay datetime
    /\ CalendarNav_prev view d' = SetDatetime datetime.
Proof.
  intros Hoff H28. unfold CalendarNav_next, CalendarNav_prev.
  set (d := ofUnit (viewGranularity view) 1) in *.
  exists (plus datetime d). split; [reflexivity|].
  assert (Ht : timeMillis d = 0) by (subst d; destruct view; reflexivity).
  assert (Hback : shiftDays (negate d) (shiftDays d (DT.localDay datetime))
                  = DT.localDay datetime).
  { destruct view.
    - apply shiftDays_days_back; reflexivity.
    - apply shiftDays_days_back; reflexivity.
    - apply shiftDays_back; try reflexivity. apply H28. left. reflexivity.
    - apply shiftDays_back; try reflexivity. apply H28. right. reflexivity. }
  split.
  - rewrite (plus_guess datetime d Hoff), Ht.
    assert (Hk : offset (zone datetime)
                   (ts datetime + (shiftDays d (DT.localDay datetime)
                                   - DT.localDay datetime) * MS_PER_DAY)
                 = DT.offset datetime) by (apply Z.eqb_eq; exact Hoff).
    destruct (shifted_fields datetime _ Hk) as (_ & _ & Htod). cbv zeta in Htod.
    rewrite <- Htod. f_equal. f_equal. lia.
  - f_equal. apply plus_minus; assumption.
Qed.

Lemma CalendarNav_next_then_prev_witness :
  let datetime := localDateTime newYork 2021 5 20 9 30 in
  exists d',
    CalendarNav_next ViewMonth datetime = SetDatetime d'
    /\ DT.timeOfDay d' = DT.timeOfDay datetime
    /\ CalendarNav_prev ViewMonth d' = SetDatetime datetime.
Proof.
  intros datetime. apply (CalendarNav_next_then_prev ViewMonth datetime).
  - vm_compute. reflexivity.
  - intros _. vm_compute. discriminate.
Defined.

(** X6: the Today button sets the anchor to the start of the current local
    day (its second [startOf] changes nothing), and in the day view the
    window becomes today's window, which starts at the anchor. *)
Theorem CalendarNav_goToday_spec (now : DateTime) (st : CalendarState) :
  wf_zone (zone now) = true ->
  CalendarNav_goToday now = SetDatetime (start (today now))
  /\ (view st = ViewDay ->
      reducer st (CalendarNav_goToday now)
      = Ok (mkState ViewDay (start (today now)) (today now))).
Proof.
  intros Hwf.
  assert (Hgo : CalendarNav_goToday now = SetDatetime (start (today now))).
  { unfold CalendarNav_goToday, today, viewOfIntervalG. cbv zeta. cbn [start].
    rewrite (startOf_idem now Hwf Day). reflexivity. }
  split; [exact Hgo|]. intros Hv. rewrite Hgo, reducer_SetDatetime, Hv.
  cbn [viewGranularity]. f_equal. f_equal.
  unfold today, viewOfIntervalG. cbv zeta. cbn [start].
  rewrite (startOf_idem now Hwf Day). reflexivity.
Qed.

Lemma CalendarNav_goToday_spec_witness :
  let now := localDateTime newYork 2021 11 7 15 45 in
  CalendarNav_goToday now = SetDatetime (start (today now)).
Proof.
  intros now.
  apply (proj1 (CalendarNav_goToday_spec now (initialState now now) eq_refl)).
Defined.

(** A reading that exists is the reading of the instant it resolves to,
    whichever offset the caller was in. *)
Lemma resolve_exists z L o :
  localTS z (fromLocal z L) = L -> localTS z (resolve z L o) = L.
Proof.
  intros H. unfold resolve. cbv zeta.
  destruct (Z.eqb_spec (offset z (L - o * MS_PER_MINUTE)) o) as [He|_]; [|exact H].
  unfold localTS. rewrite He. lia.
Qed.

(** Adding calendar units lands on the shifted date at the same time of
    day when that wall-clock time exists there. *)
Lemma plus_localDay x d :
  timeMillis d = 0 -> wallTimeExistsAfter x d = true ->
  DT.localDay (plus x d) = shiftDays d (DT.localDay x)
  /\ DT.timeOfDay (plus x d) = DT.timeOfDay x.
Proof.
  intros Ht Hex. unfold wallTimeExistsAfter in Hex. cbv zeta in Hex.
  apply Z.eqb_eq in Hex.
  assert (Hl : DT.local (plus x d)
               = shiftDays d (DT.localDay x) * MS_PER_DAY + DT.timeOfDay x).
  { unfold DT.local, plus, DT.withLocal. cbv zeta. cbn [ts zone]. rewrite Ht, Z.add_0_r.
    apply resolve_exists. exact Hex. }
  unfold DT.localDay at 1, DT.timeOfDay at 1. rewrite Hl.
  assert (Hr : 0 <= DT.timeOfDay x < MS_PER_DAY)
    by (unfold DT.timeOfDay; apply Z.mod_pos_bound; reflexivity).
  revert Hr. generalize (DT.timeOfDay x) (shiftDays d (DT.localDay x)).
  intros t n Hr. consts. split; zdiv.
Qed.

(** One month on from a day the next month lacks is the last day of that
    month, and one month back from there is the same day number. *)
Lemma shiftDays_month_clamped n :
  let c := Civil.civil_from_days n in
  let y' := if Civil.month c =? 12 then Civil.year c + 1 else Civil.year c in
  let m' := if Civil.month c =? 12 then 1 else Civil.month c + 1 in
  Civil.days_in_month y' m' < Civil.day c ->
  Civil.civil_from_days (shiftDays (ofUnit Month 1) n)
  = Civil.mkDate y' m' (Civil.days_in_month y' m')
  /\ Civil.civil_from_days
       (shiftDays (negate (ofUnit Month 1)) (shiftDays (ofUnit Month 1) n))
     = Civil.mkDate (Civil.year c) (Civil.month c) (Civil.days_in_month y' m').
Proof.
  cbv zeta.
  pose proof (civil_from_days_valid n) as Hv.
  destruct (Civil.civil_from_days n) as [y m dd] eqn:E.
  destruct Hv as [Hvm Hvd]. cbn [Civil.year Civil.month Civil.day] in *.
  set (y' := if m =? 12 then y + 1 else y).
  set (m' := if m =? 12 then 1 else m + 1).
  intros Hlt.
  assert (Hy' : ((y + 0) * 12 + (m - 1) + 1) / 12 = y')
    by (subst y'; destruct (Z.eqb_spec m 12); zdiv).
  assert (Hm' : ((y + 0) * 12 + (m - 1) + 1) mod 12 + 1 = m')
    by (subst m'; destruct (Z.eqb_spec m 12); zdiv).
  pose proof (days_in_month_range y' m') as Hrg.
  assert (Hm'r : 1 <= m' <= 12) by (subst m'; destruct (Z.eqb_spec m 12); lia).
  assert (Hs1 : shiftDays (ofUnit Month 1) n
                = Civil.days_from_civil y' m' (Civil.days_in_month y' m')).
  { unfold shiftDays. cbv zeta. rewrite E.
    cbn [Civil.year Civil.month Civil.day ofUnit years months weeks days].
    rewrite Hy', Hm'. rewrite Z.min_r by lia. lia. }
  assert (Hc : Civil.civil_from_days
                 (Civil.days_from_civil y' m' (Civil.days_in_month y' m'))
               = Civil.mkDate y' m' (Civil.days_in_month y' m')).
  { apply civil_from_days_from_civil. split; cbn [Civil.year Civil.month Civil.day]; lia. }
  rewrite Hs1. split; [exact Hc|].
  unfold shiftDays. cbv zeta. rewrite Hc.
  cbn [Civil.year Civil.month Civil.day negate ofUnit years months weeks days].
  replace ((y' + - 0) * 12 + (m' - 1) + - (1)) with (y * 12 + (m - 1))
    by (subst y' m'; destruct (Z.eqb_spec m 12); lia).
  replace ((y * 12 + (m - 1)) / 12) with y by zdiv.
  replace ((y * 12 + (m - 1)) mod 12 + 1) with m by zdiv.
  rewrite Z.min_l by lia.
  replace (Civil.days_from_civil y m (Civil.days_in_month y' m') + - 0 * 7 + - 0)
    with (Civil.days_from_civil y m (Civil.days_in_month y' m')) by lia.
  apply civil_from_days_from_civil. split; cbn [Civil.year Civil.month Civil.day]; lia.
Qed.

(** X7: in the month view, from a day of the month that the next month
    does not have (the 31st, or the 29th to 31st of January), [next] lands
    on the last day of the next month and [prev] then returns to that day
    number in the original month, not to the anchor, provided the
    wall-clock time of the anchor exists on both of these dates (no clock
    change skips it there). *)
Theorem CalendarNav_month_end_drifts (datetime : DateTime) :
  wallTimeExistsAfter datetime (ofUnit Month 1) = true ->
  wallTimeExistsAfter (plus datetime (ofUnit Month 1)) (negate (ofUnit Month 1)) = true ->
  let y' := if DT.month datetime =? 12 then DT.year datetime + 1 else DT.year datetime in
  let m' := if DT.month datetime =? 12 then 1 else DT.month datetime + 1 in
  Civil.days_in_month y' m' < DT.day datetime ->
  exists d' d'',
    CalendarNav_next ViewMonth datetime = SetDatetime d'
    /\ DT.civil d' = Civil.mkDate y' m' (Civil.days_in_month y' m')
    /\ DT.timeOfDay d' = DT.timeOfDay datetime
    /\ CalendarNav_prev ViewMonth d' = SetDatetime d''
    /\ DT.civil d'' = Civil.mkDate (DT.year datetime) (DT.month datetime)
                                   (Civil.days_in_month y' m')
    /\ DT.timeOfDay d'' = DT.timeOfDay datetime
    /\ d'' <> datetime.
Proof.
  intros Ho1 Ho2 y' m' Hlt.
  unfold CalendarNav_next, CalendarNav_prev. cbn [viewGranularity].
  exists (plus datetime (ofUnit Month 1)).
  exists (minus (plus datetime (ofUnit Month 1)) (ofUnit Month 1)).
  destruct (shiftDays_month_clamped (DT.localDay datetime) Hlt) as [H1 H2].
  destruct (plus_localDay datetime (ofUnit Month 1) eq_refl Ho1) as [Hd1 Ht1].
  destruct (plus_localDay (plus datetime (ofUnit Month 1)) (negate (ofUnit Month 1))
              eq_refl Ho2) as [Hd2 Ht2].
  assert (Hc2 : DT.civil (minus (plus datetime (ofUnit Month 1)) (ofUnit Month 1))
                = Civil.mkDate (DT.year datetime) (DT.month datetime)
                               (Civil.days_in_month y' m')).
  { unfold DT.civil, minus. rewrite Hd2, Hd1. exact H2. }
  split; [reflexivity|]. split; [unfold DT.civil; rewrite Hd1; exact H1|].
  split; [exact Ht1|]. split; [reflexivity|]. split; [exact Hc2|].
  split; [unfold minus; rewrite Ht2; exact Ht1|].
  intros Heq. rewrite Heq in Hc2. apply (f_equal Civil.day) in Hc2.
  cbn [Civil.day] in Hc2. fold (DT.day datetime) in Hc2. lia.
Qed.

Lemma CalendarNav_month_end_drifts_witness :
  let datetime := localDateTime newYork 2021 10 31 10 0 in
  exists d' d'',
    CalendarNav_next ViewMonth datetime = SetDatetime d'
    /\ DT.civil d' = Civil.mkDate 2021 11 30
    /\ DT.timeOfDay d' = DT.timeOfDay datetime
    /\ CalendarNav_prev ViewMonth d' = SetDatetime d''
    /\ DT.civil d'' = Civil.mkDate 2021 10 30
    /\ DT.timeOfDay d'' = DT.timeOfDay datetime
    /\ d'' <> datetime.
Proof.
  intros datetime.
  apply (CalendarNav_month_end_drifts datetime); vm_compute; reflexivity.
Defined.

(** ** The example: the day columns of a view *)

Lemma transitionFree_mono z a b a' b' :
  a <= a' -> b' <= b -> transitionFree z a b = true -> transitionFree z a' b' = true.
Proof.
  intros Ha Hb. unfold transitionFree. rewrite !forallb_forall.
  intros H tr Hin. specialize (H tr Hin).
  apply orb_true_iff in H as [H|H]; apply orb_true_iff; [left|right].
  - apply Z.leb_le in H. apply Z.leb_le. lia.
  - apply Z.ltb_lt in H. apply Z.ltb_lt. lia.
Qed.

(** Within a span free of transitions, whole days and weeks are added as
    multiples of twenty-four hours. *)
Lemma plus_days_free x d a b :
  years d = 0 -> months d = 0 -> timeMillis d = 0 ->
  transitionFree (zone x) a b = true ->
  a <= ts x -> 0 <= weeks d * 7 + days d ->
  ts x + (weeks d * 7 + days d) * MS_PER_DAY <= b ->
  plus x d = shiftMillis x ((weeks d * 7 + days d) * MS_PER_DAY).
Proof.
  intros Hy Hm Ht Hfree Ha Hk Hb.
  assert (Hsh : shiftDays d (DT.localDay x) - DT.localDay x = weeks d * 7 + days d)
    by (rewrite shiftDays_days by assumption; lia).
  rewrite plus_guess.
  - rewrite Hsh, Ht. unfold shiftMillis. f_equal. lia.
  - unfold sameOffsetAfter. rewrite Hsh. apply Z.eqb_eq. unfold DT.offset.
    rewrite (transitionFree_offset _ a b (ts x)) by (auto; consts; lia).
    apply (transitionFree_offset _ a b); [exact Hfree|]. consts. lia.
Qed.

(** The day walk of [splitByUnit] over [n] days free of transitions makes
    the chain of [n] spans of twenty-four hours. *)
Lemma splitByUnit_loop_days n : forall fuel s e,
  transitionFree (zone s) (ts s) (ts s + Z.of_nat n * MS_PER_DAY) = true ->
  ts e = ts s + Z.of_nat n * MS_PER_DAY -> (n <= fuel)%nat ->
  splitByUnit_loop fuel Day s e = Ok (dayChain s n).
Proof.
  induction n as [|k IH]; intros fuel s e Hfree He Hf.
  - destruct fuel; cbn [splitByUnit_loop];
      replace (ts s <? ts e) with false by (symmetry; apply Z.ltb_ge; lia);
      reflexivity.
  - destruct fuel as [|f]; [lia|]. cbn [splitByUnit_loop dayChain].
    rewrite Nat2Z.inj_succ in He, Hfree.
    replace (ts s <? ts e) with true
      by (symmetry; apply Z.ltb_lt; consts; lia).
    rewrite (plus_days_free s (ofUnit Day 1) (ts s)
               (ts s + Z.succ (Z.of_nat k) * MS_PER_DAY))
      by (try reflexivity; try exact Hfree; cbn [ofUnit weeks days]; consts; lia).
    cbn [ofUnit weeks days].
    replace ((0 * 7 + 1) * MS_PER_DAY) with MS_PER_DAY by lia.
    replace (ts e <? ts (shiftMillis s MS_PER_DAY)) with false
      by (symmetry; apply Z.ltb_ge; cbn [shiftMillis ts]; consts; lia).
    rewrite (IH f (shiftMillis s MS_PER_DAY) e).
    + reflexivity.
    + cbn [shiftMillis ts zone].
      apply (transitionFree_mono _ (ts s) (ts s + Z.succ (Z.of_nat k) * MS_PER_DAY));
        [consts; lia|consts; lia|exact Hfree].
    + cbn [shiftMillis ts]. lia.
    + lia.
Qed.

Lemma dayChain_length s n : List.length (dayChain s n) = n.
Proof. revert s. induction n as [|k IH]; intros s; cbn [dayChain List.length]; [reflexivity|]. rewrite IH. reflexivity. Qed.

Lemma In_dayChain n : forall s day, In day (dayChain s n) ->
  exists k, 0 <= k < Z.of_nat n
            /\ ts (start day) = ts s + k * MS_PER_DAY
            /\ ts (end_ day) = ts s + (k + 1) * MS_PER_DAY
            /\ zone (start day) = zone s /\ zone (end_ day) = zone s.
Proof.
  induction n as [|m IH]; intros s day Hin; [contradiction|].
  cbn [dayChain] in Hin. destruct Hin as [<-|Hin].
  - exists 0. cbn [start end_ shiftMillis ts zone]. repeat split; lia.
  - destruct (IH _ _ Hin) as (k & Hk & Hs & He & Hz1 & Hz2).
    exists (k + 1). cbn [shiftMillis ts zone] in *. repeat split; try assumption; lia.
Qed.

(** Of the chain of days from [s], exactly one contains an instant of the
    span. *)
Lemma dayChain_one_cell n : forall s x,
  ts s <= ts x < ts s + Z.of_nat n * MS_PER_DAY ->
  exists day, cellsContaining x (dayChain s n) = [day]
              /\ In day (dayChain s n)
              /\ Iv.contains day x = true.
Proof.
  induction n as [|m IH]; intros s x Hx; [cbn in Hx; lia|].
  rewrite Nat2Z.inj_succ in Hx.
  cbn [dayChain cellsContaining filter]. unfold Iv.contains at 1.
  cbn [start end_ shiftMillis ts].
  destruct (Z.ltb_spec (ts x) (ts s + MS_PER_DAY)) as [Hlt|Hge].
  - replace (ts s <=? ts x) with true by (symmetry; apply Z.leb_le; lia).
    cbn [andb]. eexists. split; [|split; [left; reflexivity|]].
    + f_equal.
      assert (Hnone : forall k t, ts x < ts t ->
                filter (fun day => Iv.contains day x) (dayChain t k) = []).
      { induction k as [|k IHk]; intros t Ht; [reflexivity|].
        cbn [dayChain filter]. unfold Iv.contains at 1. cbn [start end_ shiftMillis ts].
        replace (ts t <=? ts x) with false by (symmetry; apply Z.leb_gt; lia).
        cbn [andb]. apply IHk. cbn [shiftMillis ts]. consts. lia. }
      apply Hnone. cbn [shiftMillis ts]. lia.
    + unfold Iv.contains. cbn [start end_ shiftMillis ts].
      apply andb_true_iff. split; [apply Z.leb_le|apply Z.ltb_lt]; lia.
  - rewrite andb_false_r.
    destruct (IH (shiftMillis s MS_PER_DAY) x) as (day & Hf & Hin & Hc).
    + cbn [shiftMillis ts]. consts. lia.
    + exists day. split; [exact Hf|]. split; [right; exact Hin|exact Hc].
Qed.

Lemma weekOf_free x :
  let s := startOf Week x in
  transitionFree (zone x) (ts s) (ts s + 7 * MS_PER_DAY) = true ->
  weekOf x = mkInterval s (shiftMillis s (7 * MS_PER_DAY))
  /\ viewOfDays x "week" = Ok (dayChain s 7).
Proof.
  intros s Hfree.
  assert (Hw : weekOf x = mkInterval s (shiftMillis s (7 * MS_PER_DAY))).
  { unfold weekOf, viewOfIntervalG. cbv zeta. fold s. f_equal.
    rewrite (plus_days_free s (ofUnit Week 1) (ts s) (ts s + 7 * MS_PER_DAY))
      by (try reflexivity; try exact Hfree; cbn [ofUnit weeks days]; consts; lia).
    reflexivity. }
  split; [exact Hw|].
  unfold viewOfDays. change (parseGranularity "week") with (Some Week). cbv iota.
  unfold splitByUnit. change (parseGranularity "day") with (Some Day). cbv iota.
  rewrite Hw. unfold Iv.isValid. cbn [start end_ shiftMillis ts].
  replace (ts s <=? ts s + 7 * MS_PER_DAY) with true
    by (symmetry; apply Z.leb_le; consts; lia).
  apply splitByUnit_loop_days.
  - exact Hfree.
  - reflexivity.
  - unfold loopBound, Iv.length_ms. cbn [start end_ shiftMillis ts].
    replace (ts s + 7 * MS_PER_DAY - ts s) with (7 * MS_PER_DAY) by lia.
    apply Nat.leb_le. vm_compute. reflexivity.
Qed.

Lemma dayOf_free x :
  let s := startOf Day x in
  transitionFree (zone x) (ts s) (ts s + MS_PER_DAY) = true ->
  dayOf x = mkInterval s (shiftMillis s MS_PER_DAY).
Proof.
  intros s Hfree. unfold dayOf, viewOfIntervalG. cbv zeta. fold s. f_equal.
  rewrite (plus_days_free s (ofUnit Day 1) (ts s) (ts s + MS_PER_DAY))
    by (try reflexivity; try exact Hfree; cbn [ofUnit weeks days]; consts; lia).
  reflexivity.
Qed.

(** X8: in a week without transition the week view lays out seven columns,
    the consecutive twenty-four-hour days from the start of the week to
    its end; the day view lays out the single day of the anchor. *)
Theorem CalendarDays_columns (datetime : DateTime) :
  let s := start (weekOf datetime) in
  transitionFree (zone datetime) (ts s) (ts s + 7 * MS_PER_DAY) = true ->
  CalendarDays_days ViewWeek datetime = Ok (dayChain s 7)
  /\ List.length (dayChain s 7) = 7%nat
  /\ ts (end_ (weekOf datetime)) = ts s + 7 * MS_PER_DAY
  /\ CalendarDays_days ViewDay datetime = Ok [dayOf datetime].
Proof.
  intros s Hfree. destruct (weekOf_free datetime Hfree) as [Hw Hd].
  split; [exact Hd|]. split; [apply dayChain_length|].
  split; [|reflexivity]. rewrite Hw. reflexivity.
Qed.

Lemma CalendarDays_columns_witness :
  let datetime := localDateTime newYork 2021 6 2 9 30 in
  CalendarDays_days ViewWeek datetime = Ok (dayChain (start (weekOf datetime)) 7).
Proof.
  intros datetime. apply (CalendarDays_columns datetime). vm_compute. reflexivity.
Defined.

Lemma floorDays_month_range n : floorDays Month n <= n < floorDays Month n + 31.
Proof.
  pose proof (days_from_civil_from_days n) as Hr.
  pose proof (civil_from_days_valid n) as Hv. cbv zeta in Hr.
  unfold floorDays. destruct (Civil.civil_from_days n) as [y m d].
  destruct Hv as [Hm Hd]. cbn [Civil.year Civil.month Civil.day] in *.
  rewrite days_from_civil_day in Hr.
  pose proof (days_in_month_range y m). lia.
Qed.

Lemma Ok_inj {A : Type} (a b : A) : Ok a = Ok b -> a = b.
Proof. intros H. injection H as H. exact H. Qed.

(** An instant with the offset of an earlier one reads as much later as it
    is. *)
Lemma local_same_offset z s t :
  offset z t = offset z s -> localTS z t = localTS z s + (t - s).
Proof. intros H. unfold localTS. rewrite H. lia. Qed.

(** The anchor lies in the days of its day or week when no transition
    separates it from their start. *)
Lemma anchor_in_days x g n :
  wf_zone (zone x) = true ->
  (g = Day /\ n = 1) \/ (g = Week /\ n = 7) ->
  transitionFree (zone x) (ts (startOf g x)) (ts x) = true ->
  ts (startOf g x) <= ts x < ts (startOf g x) + n * MS_PER_DAY.
Proof.
  intros Hwf Hg Hfree.
  pose proof (startOf_le x Hwf g) as Hle.
  pose proof (startOf_reading x Hwf g) as Hrd.
  split; [exact Hle|].
  assert (Ho : offset (zone x) (ts x) = offset (zone x) (ts (startOf g x)))
    by (apply (transitionFree_offset _ _ (ts x)); [exact Hfree|lia]).
  pose proof (local_same_offset _ _ _ Ho) as Hl.
  change (localTS (zone x) (ts x)) with (DT.local x) in Hl.
  change (localTS (zone x) (ts (startOf g x))) with (DT.local (startOf g x)) in Hl.
  assert (Hup : DT.local x < floorLocal g (DT.local x) + n * MS_PER_DAY).
  { destruct Hg as [[-> ->]|[-> ->]]; rewrite floorLocal_days by discriminate.
    - cbn [floorDays]. generalize (DT.local x). intros L. consts. zdiv.
    - destruct (floorDays_week_range (DT.local x / MS_PER_DAY)) as [Hr _].
      revert Hr. generalize (floorDays Week (DT.local x / MS_PER_DAY)).
      generalize (DT.local x). intros L f Hr. consts. zdiv. }
  revert Hl Hrd Hup. generalize (DT.local x) (DT.local (startOf g x))
    (floorLocal g (DT.local x)) (ts x) (ts (startOf g x)).
  intros. consts. lia.
Qed.

(** Every day of a week without transition has the week's start as the
    start of its own week. *)
Lemma startOf_week_of_day x d k :
  wf_zone (zone x) = true ->
  let s := startOf Week x in
  transitionFree (zone x) (ts s) (ts s + 7 * MS_PER_DAY) = true ->
  zone d = zone x -> ts d = ts s + k * MS_PER_DAY -> 0 <= k < 7 ->
  startOf Week d = s.
Proof.
  intros Hwf s Hfree Hz Hts Hk.
  destruct (startOf_stable x Hwf Week) as [Hfl Hres]. cbv zeta in Hfl, Hres.
  pose proof (startOf_reading x Hwf Week) as Hrd.
  fold s in Hfl, Hres, Hrd.
  assert (Ho : offset (zone x) (ts d) = offset (zone x) (ts s)).
  { apply (transitionFree_offset _ _ (ts s + 7 * MS_PER_DAY)); [exact Hfree|].
    rewrite Hts. consts. lia. }
  assert (Hl : DT.local d = DT.local s + k * MS_PER_DAY).
  { unfold DT.local at 1. rewrite Hz, (local_same_offset _ (ts s) _ Ho), Hts.
    change (localTS (zone x) (ts s)) with (DT.local s). lia. }
  assert (Hfd : floorLocal Week (DT.local d) = floorLocal Week (DT.local x)).
  { rewrite Hl. rewrite !floorLocal_days by discriminate.
    rewrite floorLocal_days in Hrd by discriminate.
    destruct (floorDays_week_range (DT.local x / MS_PER_DAY)) as [_ Hmon].
    assert (Hday : (DT.local s + k * MS_PER_DAY) / MS_PER_DAY
                   = floorDays Week (DT.local x / MS_PER_DAY) + k).
    { revert Hrd. generalize (floorDays Week (DT.local x / MS_PER_DAY)) (DT.local s).
      intros f L Hrd. clear - Hrd Hk. consts. zdiv. }
    rewrite Hday. f_equal.
    revert Hmon. generalize (floorDays Week (DT.local x / MS_PER_DAY)).
    intros f Hmon. clear - Hmon Hk. unfold floorDays, Civil.weekday_of_days in *. zdiv. }
  unfold startOf at 1. rewrite Hfd. unfold DT.withLocal.
  assert (Hod : DT.offset d = DT.offset s) by (unfold DT.offset; rewrite Hz; exact Ho).
  rewrite Hod, Hz, Hres. subst s. exact (DateTime_eta (startOf Week x)).
Qed.



(** X10: in the day view, and in the week view of a week without
    transition, exactly one day column is highlighted as holding the
    anchor, provided no transition separates the anchor from the start of
    the view. *)
Theorem CalendarDays_one_highlight (view : View) (now datetime : DateTime) :
  wf_zone (zone datetime) = true ->
  view = ViewDay \/ view = ViewWeek ->
  let s := startOf (viewGranularity view) datetime in
  let n := match view with ViewWeek => 7 | _ => 1 end in
  transitionFree (zone datetime) (ts s) (ts s + n * MS_PER_DAY) = true ->
  transitionFree (zone datetime) (ts s) (ts datetime) = true ->
  exists days day,
    CalendarDays_days view datetime = Ok days
    /\ filter (fun d => dayHighlight (CalendarDay_className now datetime d)) days = [day]
    /\ In day days.
Proof.
  intros Hwf Hview s n Hfree Hanchor.
  assert (Hdays : CalendarDays_days view datetime = Ok (dayChain s (Z.to_nat n))).
  { destruct Hview as [-> | ->]; subst s n; cbn [viewGranularity] in *.
    - unfold CalendarDays_days. cbn [viewName].
      change (viewOfDays datetime "day") with (Ok [dayOf datetime]).
      rewrite (dayOf_free datetime) by (rewrite <- Hfree; f_equal; lia).
      reflexivity.
    - exact (proj2 (weekOf_free datetime Hfree)). }
  assert (Hspan : ts s <= ts datetime < ts s + Z.of_nat (Z.to_nat n) * MS_PER_DAY).
  { pose proof (anchor_in_days datetime (viewGranularity view) n Hwf) as Ha.
    assert (Hn : Z.of_nat (Z.to_nat n) = n)
      by (destruct Hview as [-> | ->]; reflexivity).
    rewrite Hn. apply Ha; [|exact Hanchor].
    destruct Hview as [-> | ->]; [left|right]; split; reflexivity. }
  destruct (dayChain_one_cell _ _ _ Hspan) as (day & Hf & Hin & _).
  exists (dayChain s (Z.to_nat n)), day. split; [exact Hdays|].
  split; [exact Hf|exact Hin].
Qed.

Lemma CalendarDays_one_highlight_witness :
  let datetime := localDateTime newYork 2021 6 2 9 30 in
  exists days day,
    CalendarDays_days ViewWeek datetime = Ok days
    /\ filter (fun d => dayHighlight (CalendarDay_className datetime datetime d)) days = [day]
    /\ In day days.
Proof.
  intros datetime.
  apply (CalendarDays_one_highlight ViewWeek datetime datetime);
    [reflexivity|right; reflexivity|vm_compute; reflexivity|vm_compute; reflexivity].
Defined.

(** The start of a unit reads exactly the unit's starting reading when no
    transition falls on it. *)
Lemma startOf_exact x g :
  wf_zone (zone x) = true ->
  transitionFree (zone x) (ts (startOf g x) - 1) (ts (startOf g x)) = true ->
  DT.local (startOf g x) = floorLocal g (DT.local x).
Proof.
  intros Hwf Hfree.
  set (L := floorLocal g (DT.local x)).
  assert (Hts : ts (startOf g x) = resolve (zone x) L (DT.offset x)) by reflexivity.
  assert (Hloc : DT.local (startOf g x) = localTS (zone x) (ts (startOf g x)))
    by reflexivity.
  revert Hfree Hts Hloc. generalize (startOf g x). intros s Hfree Hts Hloc.
  unfold resolve in Hts. cbv zeta in Hts.
  destruct (Z.eqb_spec (offset (zone x) (L - DT.offset x * MS_PER_MINUTE)) (DT.offset x))
    as [He|Hne].
  - rewrite Hloc. unfold localTS. rewrite Hts, He. lia.
  - destruct (fromLocal_spec (zone x) Hwf L) as (Hrd & Hleast & _).
    cbv zeta in Hrd, Hleast. rewrite <- Hts in Hrd, Hleast.
    specialize (Hleast (ts s - 1) ltac:(lia)).
    assert (Ho : offset (zone x) (ts s) = offset (zone x) (ts s - 1))
      by (apply (transitionFree_offset _ _ (ts s)); [exact Hfree|lia]).
    rewrite Hloc. unfold localTS in *. rewrite Ho in *. lia.
Qed.

(** An instant that reads a local midnight is the start of its day. *)
Lemma startOf_day_of_midnight d :
  DT.local d mod MS_PER_DAY = 0 -> startOf Day d = d.
Proof.
  intros H. unfold startOf.
  replace (floorLocal Day (DT.local d)) with (DT.local d).
  - apply withLocal_own.
  - unfold floorLocal, floorDays. revert H. generalize (DT.local d).
    intros L H. consts. zdiv.
Qed.

Section WeekWithoutTransition.

Variable x : DateTime.
Hypothesis Hwf : wf_zone (zone x) = true.
Hypothesis Hfree :
  transitionFree (zone x) (ts (startOf Week x) - 1)
                 (ts (startOf Week x) + 7 * MS_PER_DAY) = true.

Lemma week_free_open :
  transitionFree (zone x) (ts (startOf Week x))
                 (ts (startOf Week x) + 7 * MS_PER_DAY) = true.
Proof.
  apply (transitionFree_mono _ (ts (startOf Week x) - 1)
           (ts (startOf Week x) + 7 * MS_PER_DAY)); [lia|lia|exact Hfree].
Qed.

Lemma week_day_fields day :
  In day (dayChain (startOf Week x) 7) ->
  zone (start day) = zone x
  /\ ts (startOf Week x) <= ts (start day)
  /\ ts (start day) + MS_PER_DAY <= ts (startOf Week x) + 7 * MS_PER_DAY
  /\ DT.local (start day) mod MS_PER_DAY = 0.
Proof.
  intros Hin. destruct (In_dayChain _ _ _ Hin) as (k & Hk & Hs & _ & Hz & _).
  change (zone (startOf Week x)) with (zone x) in Hz.
  change (Z.of_nat 7) with 7 in Hk.
  split; [exact Hz|]. split; [consts; lia|]. split; [consts; lia|].
  assert (Hex : DT.local (startOf Week x) = floorLocal Week (DT.local x)).
  { apply startOf_exact; [exact Hwf|].
    apply (transitionFree_mono _ (ts (startOf Week x) - 1)
             (ts (startOf Week x) + 7 * MS_PER_DAY)); [lia|consts; lia|exact Hfree]. }
  rewrite floorLocal_days in Hex by discriminate.
  assert (Ho : offset (zone x) (ts (start day)) = offset (zone x) (ts (startOf Week x))).
  { apply (transitionFree_offset _ _ (ts (startOf Week x) + 7 * MS_PER_DAY));
      [exact week_free_open|]. consts. lia. }
  unfold DT.local at 1. rewrite Hz, (local_same_offset _ _ _ Ho).
  change (localTS (zone x) (ts (startOf Week x))) with (DT.local (startOf Week x)).
  rewrite Hex, Hs.
  generalize (floorDays Week (DT.local x / MS_PER_DAY)). intros f.
  clear - Hk. consts. zdiv.
Qed.

End WeekWithoutTransition.

(** X11: in a week without transition every day column of the week view
    draws its own half-hour segmentation, 48 segments. *)
Theorem CalendarDays_week_draws_own_days (datetime : DateTime) (day : Interval) :
  wf_zone (zone datetime) = true ->
  let s := start (weekOf datetime) in
  transitionFree (zone datetime) (ts s - 1) (ts s + 7 * MS_PER_DAY) = true ->
  (exists days, CalendarDays_days ViewWeek datetime = Ok days /\ In day days) ->
  CalendarDay_segments day = segmentationOf (start day)
  /\ segmentCount (CalendarDay_segments day) = Some 48.
Proof.
  intros Hwf s Hfree (days & Hdays & Hin).
  pose proof (week_free_open datetime Hfree) as Hopen.
  destruct (weekOf_free datetime Hopen) as [_ Hd].
  unfold CalendarDays_days in Hdays. cbn [viewName] in Hdays.
  rewrite Hd in Hdays. apply Ok_inj in Hdays. rewrite <- Hdays in Hin.
  destruct (week_day_fields datetime Hwf Hfree day Hin) as (Hz & Hlo & Hhi & Hmid).
  apply CalendarDay_own_day.
  assert (Hst : start (dayOf (start day)) = start day)
    by (apply startOf_day_of_midnight; exact Hmid).
  rewrite Hst, Hz.
  apply (transitionFree_mono _ (ts s) (ts s + 7 * MS_PER_DAY));
    [exact Hlo|exact Hhi|exact Hopen].
Qed.

Lemma CalendarDays_week_draws_own_days_witness :
  let datetime := localDateTime newYork 2021 6 2 9 30 in
  let day := mkInterval (localDateTime newYork 2021 6 4 0 0)
                        (localDateTime newYork 2021 6 5 0 0) in
  segmentCount (CalendarDay_segments day) = Some 48.
Proof.
  intros datetime day.
  apply (CalendarDays_week_draws_own_days datetime day); try reflexivity.
  exists (dayChain (start (weekOf datetime)) 7). split; [reflexivity|].
  vm_compute. tauto.
Defined.

(** X12: in a week without transition, after the click on the header of a
    day column the week view shows the same seven columns and the clicked
    column is the one highlighted. *)
Theorem CalendarDay_click_highlights_column
  (now datetime : DateTime) (days : list Interval) (day : Interval) :
  wf_zone (zone datetime) = true ->
  let s := start (weekOf datetime) in
  transitionFree (zone datetime) (ts s) (ts s + 7 * MS_PER_DAY) = true ->
  CalendarDays_days ViewWeek datetime = Ok days -> In day days ->
  CalendarDays_days ViewWeek (start day) = Ok days
  /\ filter (fun d => dayHighlight (CalendarDay_className now (start day) d)) days
     = [day].
Proof.
  intros Hwf s Hfree Hdays Hin.
  destruct (weekOf_free datetime Hfree) as [Hw Hd].
  unfold CalendarDays_days in *. cbn [viewName] in *.
  rewrite Hd in Hdays. apply Ok_inj in Hdays. subst days.
  destruct (In_dayChain _ _ _ Hin) as (k & Hk & Hs & He & Hz & _).
  assert (Hso : startOf Week (start day) = startOf Week datetime)
    by (apply (startOf_week_of_day datetime (start day) k Hwf Hfree); assumption).
  assert (Hsame : viewOfDays (start day) "week" = viewOfDays datetime "week").
  { unfold viewOfDays. change (parseGranularity "week") with (Some Week). cbv iota.
    f_equal. unfold weekOf, viewOfIntervalG. cbv zeta. rewrite Hso. reflexivity. }
  split; [rewrite Hsame; exact Hd|].
  change (Z.of_nat 7) with 7 in Hk.
  destruct (dayChain_one_cell 7 (startOf Week datetime) (start day))
    as (cell & Hf & _ & _); [change (Z.of_nat 7) with 7; consts; lia|].
  change (filter (fun d => dayHighlight (CalendarDay_className now (start day) d))
            (dayChain (startOf Week datetime) 7))
    with (cellsContaining (start day) (dayChain (startOf Week datetime) 7)).
  rewrite Hf. f_equal.
  assert (Hmem : In day (cellsContaining (start day) (dayChain (startOf Week datetime) 7))).
  { apply filter_In. split; [exact Hin|]. unfold Iv.contains.
    apply andb_true_iff. split; [apply Z.leb_le; lia|apply Z.ltb_lt; consts; lia]. }
  rewrite Hf in Hmem. destruct Hmem as [->|[]]. reflexivity.
Qed.

Lemma CalendarDay_click_highlights_column_witness :
  let datetime := localDateTime newYork 2021 6 2 9 30 in
  let days := dayChain (start (weekOf datetime)) 7 in
  let day := mkInterval (localDateTime newYork 2021 6 4 0 0)
                        (localDateTime newYork 2021 6 5 0 0) in
  CalendarDays_days ViewWeek (start day) = Ok days.
Proof.
  intros datetime days day.
  apply (CalendarDay_click_highlights_column datetime datetime days day);
    try reflexivity.
  vm_compute. tauto.
Defined.

(** ** The example: the month grid, the mini month and the sidebar *)

Lemma paddedMonth_free x :
  let sp := start (paddedMonthOf x defaultPadding) in
  transitionFree (zone x) (ts sp) (ts sp + 42 * MS_PER_DAY) = true ->
  paddedMonthOf x defaultPadding = mkInterval sp (shiftMillis sp (42 * MS_PER_DAY))
  /\ CalendarMonth_days x = Ok (dayChain sp 42).
Proof.
  intros sp Hfree.
  assert (Hsp : sp = startOf Week (startOf Month x)) by reflexivity.
  assert (Hz : zone sp = zone x) by reflexivity.
  assert (Hp : paddedMonthOf x defaultPadding = mkInterval sp (shiftMillis sp (42 * MS_PER_DAY))).
  { unfold paddedMonthOf. cbv zeta. rewrite <- Hsp. f_equal.
    cbn [defaultPadding weeksPerMonth daysPerWeek].
    rewrite (plus_days_free sp (ofDays (6 * 7)) (ts sp) (ts sp + 42 * MS_PER_DAY))
      by (try reflexivity; try (rewrite Hz; exact Hfree); cbn [ofDays weeks days];
          consts; lia).
    cbn [ofDays weeks days]. f_equal; lia. }
  split; [exact Hp|].
  unfold CalendarMonth_days, viewOfDays.
  change (parseGranularity "month") with (Some Month). cbv iota.
  unfold splitByUnit. change (parseGranularity "day") with (Some Day). cbv iota.
  rewrite Hp. unfold Iv.isValid. cbn [start end_ shiftMillis ts].
  replace (ts sp <=? ts sp + 42 * MS_PER_DAY) with true
    by (symmetry; apply Z.leb_le; consts; lia).
  apply splitByUnit_loop_days.
  - rewrite Hz. exact Hfree.
  - reflexivity.
  - unfold loopBound, Iv.length_ms. cbn [start end_ shiftMillis ts].
    replace (ts sp + 42 * MS_PER_DAY - ts sp) with (42 * MS_PER_DAY) by lia.
    apply Nat.leb_le. vm_compute. reflexivity.
Qed.

(** The anchor lies in the padded grid of its month when no transition
    separates it from the start of the grid. *)
Lemma anchor_in_grid x :
  wf_zone (zone x) = true ->
  let sp := startOf Week (startOf Month x) in
  transitionFree (zone x) (ts sp) (ts x) = true ->
  ts sp <= ts x < ts sp + 42 * MS_PER_DAY.
Proof.
  intros Hwf sp Hfree.
  assert (Hwf' : wf_zone (zone (startOf Month x)) = true) by exact Hwf.
  pose proof (startOf_le x Hwf Month) as H1.
  pose proof (startOf_le (startOf Month x) Hwf' Week) as H2. fold sp in H2.
  destruct (startOf_day_reading x Month Hwf ltac:(discriminate)) as [_ Hdm].
  destruct (startOf_day_reading (startOf Month x) Week Hwf' ltac:(discriminate))
    as [Hsp _]. fold sp in Hsp. rewrite Hdm in Hsp.
  destruct (floorDays_week_range (floorDays Month (DT.localDay x))) as [Hfw _].
  pose proof (floorDays_month_range (DT.localDay x)) as Hmr.
  split; [lia|].
  assert (Ho : offset (zone x) (ts x) = offset (zone x) (ts sp))
    by (apply (transitionFree_offset _ _ (ts x)); [exact Hfree|lia]).
  pose proof (local_same_offset _ _ _ Ho) as Hl.
  change (localTS (zone x) (ts x)) with (DT.local x) in Hl.
  change (localTS (zone x) (ts sp)) with (DT.local sp) in Hl.
  pose proof (local_split x) as Hs.
  assert (Htod : 0 <= DT.timeOfDay x < MS_PER_DAY)
    by (unfold DT.timeOfDay; generalize (DT.local x); intros; consts; zdiv).
  clear H1 H2 Hfree Ho Hdm.
  revert Hsp Hfw Hmr Hl Hs Htod.
  generalize (floorDays Week (floorDays Month (DT.localDay x)))
    (floorDays Month (DT.localDay x)) (DT.localDay x) (DT.timeOfDay x)
    (DT.local x) (DT.local sp) (ts x) (ts sp).
  intros. consts. lia.
Qed.

(** In a grid without transition that starts at a local midnight, the cell
    that contains an instant starts on the local day of that instant. *)
Lemma cell_same_local_day (x sp : DateTime) (day : Interval) (f : Z) (n : nat) :
  zone sp = zone x ->
  DT.local sp = f * MS_PER_DAY ->
  transitionFree (zone x) (ts sp) (ts sp + Z.of_nat n * MS_PER_DAY) = true ->
  transitionFree (zone x) (ts sp) (ts x) = true ->
  In day (dayChain sp n) -> Iv.contains day x = true ->
  DT.localDay (start day) = DT.localDay x.
Proof.
  intros Hzsp Hex Hopen Hanchor Hin Hc.
  destruct (In_dayChain _ _ _ Hin) as (k & Hk & Hs & He & Hz & _).
  rewrite Hzsp in Hz.
  unfold Iv.contains in Hc. apply andb_true_iff in Hc as [Hc1 Hc2].
  apply Z.leb_le in Hc1. apply Z.ltb_lt in Hc2. rewrite Hs in Hc1. rewrite He in Hc2.
  assert (Ho1 : offset (zone x) (ts (start day)) = offset (zone x) (ts sp)).
  { apply (transitionFree_offset _ _ (ts sp + Z.of_nat n * MS_PER_DAY));
      [exact Hopen|]. rewrite Hs. consts. lia. }
  assert (Ho2 : offset (zone x) (ts x) = offset (zone x) (ts sp))
    by (apply (transitionFree_offset _ _ (ts x)); [exact Hanchor|consts; lia]).
  assert (Hl1 : DT.local (start day) = DT.local sp + k * MS_PER_DAY).
  { unfold DT.local. rewrite Hz, Hzsp, (local_same_offset _ _ _ Ho1), Hs. lia. }
  assert (Hl2 : DT.local x = DT.local sp + (ts x - ts sp)).
  { unfold DT.local. rewrite Hzsp, (local_same_offset _ _ _ Ho2). reflexivity. }
  unfold DT.localDay. rewrite Hl1, Hl2, Hex.
  clear - Hk Hc1 Hc2.
  revert Hc1 Hc2. generalize (ts x) (ts sp). intros t s0 Hc1 Hc2.
  consts.
  assert (H1 : (f * 86400000 + k * 86400000) / 86400000 = f + k) by zdiv.
  assert (H2 : (f * 86400000 + (t - s0)) / 86400000 = f + k) by zdiv.
  lia.
Qed.

Lemma filter_isActive x l :
  filter (CalendarMonth_isActive x) l = cellsContaining x l.
Proof. reflexivity. Qed.

Lemma month_grid_cells (x sp : DateTime) :
  wf_zone (zone x) = true ->
  sp = startOf Week (startOf Month x) ->
  transitionFree (zone x) (ts sp - 1) (ts sp + 42 * MS_PER_DAY) = true ->
  transitionFree (zone x) (ts sp) (ts x) = true ->
  CalendarMonth_days x = Ok (dayChain sp 42)
  /\ exists day,
       filter (CalendarMonth_isActive x) (dayChain sp 42) = [day]
       /\ In day (dayChain sp 42)
       /\ CalendarMonth_isPadded x day = false.
Proof.
  intros Hwf Hspdef Hfree Hanchor.
  assert (Hopen : transitionFree (zone x) (ts sp) (ts sp + 42 * MS_PER_DAY) = true)
    by (apply (transitionFree_mono _ (ts sp - 1) (ts sp + 42 * MS_PER_DAY));
        [lia|lia|exact Hfree]).
  assert (Hdays : CalendarMonth_days x = Ok (dayChain sp 42)).
  { rewrite Hspdef in Hopen |- *. exact (proj2 (paddedMonth_free x Hopen)). }
  split; [exact Hdays|].
  assert (Hspan : ts sp <= ts x < ts sp + 42 * MS_PER_DAY).
  { rewrite Hspdef in Hanchor |- *. exact (anchor_in_grid x Hwf Hanchor). }
  assert (Hzsp : zone sp = zone x) by (rewrite Hspdef; reflexivity).
  assert (Hwf' : wf_zone (zone (startOf Month x)) = true) by exact Hwf.
  assert (Hex : DT.local sp = floorLocal Week (DT.local (startOf Month x))).
  { rewrite Hspdef. apply (startOf_exact (startOf Month x) Week Hwf').
    rewrite <- Hspdef.
    apply (transitionFree_mono _ (ts sp - 1) (ts sp + 42 * MS_PER_DAY));
      [lia|consts; lia|exact Hfree]. }
  rewrite floorLocal_days in Hex by discriminate.
  clear Hspdef Hdays.
  destruct (dayChain_one_cell 42 sp x Hspan) as (day & Hf & Hin & Hc).
  exists day. split; [rewrite filter_isActive; exact Hf|]. split; [exact Hin|].
  pose proof (cell_same_local_day x sp day _ 42 Hzsp Hex Hopen Hanchor Hin Hc) as Hday.
  unfold CalendarMonth_isPadded, DT.month, DT.civil. rewrite Hday.
  rewrite Z.eqb_refl. reflexivity.
Qed.

(** X13: in a month grid without transition the month view has 42 cells,
    exactly one of them is the active cell holding the anchor, and the
    active cell is never drawn as a day of an adjacent month. *)
Theorem CalendarMonth_one_active_cell (datetime : DateTime) :
  wf_zone (zone datetime) = true ->
  let sp := start (paddedMonthOf datetime defaultPadding) in
  transitionFree (zone datetime) (ts sp - 1) (ts sp + 42 * MS_PER_DAY) = true ->
  transitionFree (zone datetime) (ts sp) (ts datetime) = true ->
  exists days day,
    CalendarMonth_days datetime = Ok days
    /\ List.length days = 42%nat
    /\ filter (CalendarMonth_isActive datetime) days = [day]
    /\ In day days
    /\ CalendarMonth_isPadded datetime day = false.
Proof.
  intros Hwf sp Hfree Hanchor.
  destruct (month_grid_cells datetime sp Hwf eq_refl Hfree Hanchor)
    as (Hdays & day & Hf & Hin & Hp).
  exists (dayChain sp 42), day.
  split; [exact Hdays|]. split; [apply dayChain_length|].
  split; [exact Hf|]. split; [exact Hin|exact Hp].
Qed.

Lemma CalendarMonth_one_active_cell_witness :
  let datetime := localDateTime newYork 2021 6 15 9 30 in
  exists days day,
    CalendarMonth_days datetime = Ok days
    /\ List.length days = 42%nat
    /\ filter (CalendarMonth_isActive datetime) days = [day]
    /\ In day days
    /\ CalendarMonth_isPadded datetime day = false.
Proof.
  intros datetime.
  apply (CalendarMonth_one_active_cell datetime); vm_compute; reflexivity.
Defined.

(** X14: the decorations of a mini-month cell exclude one another as the
    code combines them: a cell is never both in the interval and greyed as
    padded; the interval's start and end marks only go to cells marked as
    in the interval; a cell of an adjacent month is never marked as today
    and, unless months are spanned, always greyed and never in the
    interval; a cell of the month itself is never greyed. *)
Theorem CalendarMiniMonth_classes_exclusive
  (spanMonths : bool) (month interval : Interval) (now : DateTime) (day : Interval) :
  let c := CalendarMiniMonth_classes spanMonths month interval now day in
  let isPadded := negb (DT.month (start day) =? DT.month (start month)) in
  miniInterval c && miniPadded c = false
  /\ miniIntervalStart c && negb (miniInterval c) = false
  /\ miniIntervalEnd c && negb (miniInterval c) = false
  /\ (if isPadded
      then miniToday c = false
           /\ (if spanMonths then miniPadded c = negb (miniInterval c)
               else miniInterval c = false /\ miniPadded c = true)
      else miniPadded c = false
           /\ miniInterval c = Iv.contains interval (start day)
           /\ miniToday c = Iv.contains day now).
Proof.
  intros c isPadded. subst c isPadded. unfold CalendarMiniMonth_classes. cbv zeta.
  cbn [miniToday miniInterval miniPadded miniIntervalStart miniIntervalEnd].
  destruct spanMonths;
    destruct (negb (DT.month (start day) =? DT.month (start month)));
    destruct (Iv.contains interval (start day));
    destruct (Iv.contains day now);
    destruct (equals (start interval) (startOf Day (start day)));
    destruct (hasSame (end_ interval) (endOf Day (start day)) Day);
    cbn; repeat split; reflexivity.
Qed.

(** X15: the month handed to the sidebar's mini month starts on the first
    of the anchor's month, at the start of the month view's window, so the
    mini month pads the same grid as the anchor itself. *)
Theorem CalendarApp_sidebarMonth_spec (datetime : DateTime) (config : PaddingConfig) :
  wf_zone (zone datetime) = true ->
  let month := CalendarApp_sidebarMonth datetime in
  start month = start (viewOfIntervalG datetime Month)
  /\ DT.civil (start month) = Civil.mkDate (DT.year datetime) (DT.month datetime) 1
  /\ paddedMonthOf (start month) config = paddedMonthOf datetime config.
Proof.
  intros Hwf month. subst month. unfold CalendarApp_sidebarMonth. cbn [start].
  split; [reflexivity|]. split.
  - destruct (startOf_day_reading datetime Month Hwf ltac:(discriminate)) as [_ Hd].
    unfold DT.civil at 1. rewrite Hd. apply floorDays_month_civil.
  - unfold paddedMonthOf. cbv zeta. rewrite (startOf_idem datetime Hwf Month).
    reflexivity.
Qed.

Lemma CalendarApp_sidebarMonth_spec_witness :
  let datetime := localDateTime newYork 2021 11 20 9 30 in
  paddedMonthOf (start (CalendarApp_sidebarMonth datetime)) defaultPadding
  = paddedMonthOf datetime defaultPadding.
Proof.
  intros datetime.
  apply (proj2 (proj2 (CalendarApp_sidebarMonth_spec datetime defaultPadding eq_refl))).
Defined.

(** The same month a year or more later starts at least 365 days later. *)
Lemma month_start_year_gap y1 y2 m : y1 < y2 ->
  Civil.days_from_civil y1 m 1 + 365 <= Civil.days_from_civil y2 m 1.
Proof.
  intros H.
  assert (Hgap : forall a b, a < b ->
            Civil.days_before_year a + 365 <= Civil.days_before_year b).
  { intros a b Hab. pose proof (days_before_year_succ (a + 1)) as Hs.
    replace (a + 1 - 1) with a in Hs by lia.
    pose proof (days_before_year_mono (a + 1) b ltac:(lia)).
    destruct (Civil.is_leap (a + 1)); lia. }
  destruct (Z_le_gt_dec m 2) as [Hm|Hm].
  - rewrite !days_from_civil_low by exact Hm. specialize (Hgap (y1 - 1) (y2 - 1)). lia.
  - rewrite !days_from_civil_high by lia. specialize (Hgap y1 y2). lia.
Qed.

(** Two days less than 300 days apart with the same month number lie in
    the same month. *)
Lemma same_month_near n1 n2 :
  Civil.month (Civil.civil_from_days n1) = Civil.month (Civil.civil_from_days n2) ->
  Z.abs (n1 - n2) < 300 ->
  floorDays Month n1 = floorDays Month n2.
Proof.
  intros Hm Hnear. unfold floorDays.
  pose proof (days_from_civil_from_days n1) as Hr1.
  pose proof (days_from_civil_from_days n2) as Hr2.
  pose proof (civil_from_days_valid n1) as [_ Hv1].
  pose proof (civil_from_days_valid n2) as [_ Hv2].
  cbv zeta in Hr1, Hr2.
  destruct (Civil.civil_from_days n1) as [y1 m1 d1].
  destruct (Civil.civil_from_days n2) as [y2 m2 d2].
  cbn [Civil.year Civil.month Civil.day] in *. subst m2.
  rewrite days_from_civil_day in Hr1, Hr2.
  pose proof (days_in_month_range y1 m1). pose proof (days_in_month_range y2 m1).
  destruct (Z.lt_trichotomy y1 y2) as [Hlt|[Heq|Hgt]].
  - pose proof (month_start_year_gap y1 y2 m1 Hlt). lia.
  - subst y2. reflexivity.
  - pose proof (month_start_year_gap y2 y1 m1 Hgt). lia.
Qed.

(** X16: in a month grid without transition, the click on a cell of the
    anchor's own month moves the anchor to that day and leaves the month
    window and the 42 cells as they are. *)
Theorem CalendarMonth_click_keeps_month (st : CalendarState) (day : Interval) :
  wf_zone (zone (datetime st)) = true ->
  let sp := start (paddedMonthOf (datetime st) defaultPadding) in
  transitionFree (zone (datetime st)) (ts sp - 1) (ts sp + 42 * MS_PER_DAY) = true ->
  transitionFree (zone (datetime st)) (ts sp) (ts (datetime st)) = true ->
  view st = ViewMonth -> consistent st ->
  (exists days, CalendarMonth_days (datetime st) = Ok days /\ In day days) ->
  CalendarMonth_isPadded (datetime st) day = false ->
  reducer st (CalendarMonth_handleDayClick day)
  = Ok (mkState ViewMonth (start day) (interval st))
  /\ CalendarMonth_days (start day) = CalendarMonth_days (datetime st).
Proof.
  intros Hwf sp Hfree Hanchor Hv Hc (days & Hdays & Hin) Hpad.
  set (x := datetime st) in *.
  assert (Hspdef : sp = startOf Week (startOf Month x)) by reflexivity.
  clearbody sp.
  destruct (month_grid_cells x sp Hwf Hspdef Hfree Hanchor) as (Hcells & _).
  rewrite Hcells in Hdays. apply Ok_inj in Hdays. rewrite <- Hdays in Hin. clear Hdays.
  assert (Hopen : transitionFree (zone x) (ts sp) (ts sp + 42 * MS_PER_DAY) = true)
    by (apply (transitionFree_mono _ (ts sp - 1) (ts sp + 42 * MS_PER_DAY));
        [lia|lia|exact Hfree]).
  assert (Hzsp : zone sp = zone x) by (rewrite Hspdef; reflexivity).
  assert (Hwf' : wf_zone (zone (startOf Month x)) = true) by exact Hwf.
  assert (Hex : DT.local sp = floorLocal Week (DT.local (startOf Month x))).
  { rewrite Hspdef. apply (startOf_exact (startOf Month x) Week Hwf').
    rewrite <- Hspdef.
    apply (transitionFree_mono _ (ts sp - 1) (ts sp + 42 * MS_PER_DAY));
      [lia|consts; lia|exact Hfree]. }
  rewrite floorLocal_days in Hex by discriminate.
  assert (Hspan : ts sp <= ts x < ts sp + 42 * MS_PER_DAY)
    by (rewrite Hspdef in Hanchor |- *; exact (anchor_in_grid x Hwf Hanchor)).
  pose proof (startOf_le x Hwf Month) as Hsm1.
  assert (Hsm2 : ts sp <= ts (startOf Month x))
    by (rewrite Hspdef; apply (startOf_le (startOf Month x) Hwf' Week)).
  destruct (In_dayChain _ _ _ Hin) as (k & Hk & Hs & He & Hz & _).
  rewrite Hzsp in Hz. change (Z.of_nat 42) with 42 in Hk.
  (* offsets agree over the grid *)
  assert (Ho1 : offset (zone x) (ts (start day)) = offset (zone x) (ts sp))
    by (apply (transitionFree_offset _ _ (ts sp + 42 * MS_PER_DAY));
        [exact Hopen|rewrite Hs; consts; lia]).
  assert (Ho2 : offset (zone x) (ts x) = offset (zone x) (ts sp))
    by (apply (transitionFree_offset _ _ (ts x)); [exact Hanchor|lia]).
  assert (Ho3 : offset (zone x) (ts (startOf Month x)) = offset (zone x) (ts sp))
    by (apply (transitionFree_offset _ _ (ts x)); [exact Hanchor|lia]).
  assert (Hl1 : DT.local (start day) = DT.local sp + k * MS_PER_DAY).
  { unfold DT.local. rewrite Hz, Hzsp, (local_same_offset _ _ _ Ho1), Hs. lia. }
  assert (Hl2 : DT.local x = DT.local sp + (ts x - ts sp)).
  { unfold DT.local. rewrite Hzsp, (local_same_offset _ _ _ Ho2). reflexivity. }
  (* the clicked day and the anchor lie in the same month *)
  assert (Hfm : floorLocal Month (DT.local (start day)) = floorLocal Month (DT.local x)).
  { rewrite !floorLocal_days by discriminate. f_equal.
    apply same_month_near.
    - unfold CalendarMonth_isPadded in Hpad. apply negb_false_iff, Z.eqb_eq in Hpad.
      exact Hpad.
    - rewrite Hl1, Hl2, Hex.
      generalize (floorDays Week (DT.local (startOf Month x) / MS_PER_DAY)).
      intros f. clear - Hk Hspan.
      revert Hspan. generalize (ts x) (ts sp). intros t s0 Hspan. consts.
      assert (H1 : (f * 86400000 + k * 86400000) / 86400000 = f + k) by zdiv.
      assert (H2 : f <= (f * 86400000 + (t - s0)) / 86400000 < f + 42) by zdiv.
      lia. }
  destruct (startOf_stable x Hwf Month) as [_ Hres]. cbv zeta in Hres.
  assert (Hso : startOf Month (start day) = startOf Month x).
  { unfold startOf at 1. rewrite Hfm. unfold DT.withLocal.
    assert (Hod : DT.offset (start day) = DT.offset (startOf Month x)).
    { unfold DT.offset. rewrite Hz. change (zone (startOf Month x)) with (zone x).
      rewrite Ho1, Ho3. reflexivity. }
    rewrite Hod, Hz, Hres. exact (DateTime_eta (startOf Month x)). }
  split.
  - unfold CalendarMonth_handleDayClick. rewrite reducer_SetDatetime, Hv.
    cbn [viewGranularity]. f_equal. f_equal.
    unfold consistent in Hc. rewrite Hv in Hc. cbn [viewName] in Hc.
    change (viewOfInterval (datetime st) "month")
      with (Ok (viewOfIntervalG x Month)) in Hc.
    apply Ok_inj in Hc. rewrite <- Hc.
    unfold viewOfIntervalG. cbv zeta. rewrite Hso. reflexivity.
  - unfold CalendarMonth_days, viewOfDays.
    change (parseGranularity "month") with (Some Month). cbv iota.
    f_equal. unfold paddedMonthOf. cbv zeta. rewrite Hso. reflexivity.
Qed.

Lemma CalendarMonth_click_keeps_month_witness :
  let now := localDateTime newYork 2021 6 15 9 30 in
  let st := mkState ViewMonth now (viewOfIntervalG now Month) in
  let day := mkInterval (localDateTime newYork 2021 6 4 0 0)
                        (localDateTime newYork 2021 6 5 0 0) in
  reducer st (CalendarMonth_handleDayClick day)
  = Ok (mkState ViewMonth (start day) (interval st))
  /\ CalendarMonth_days (start day) = CalendarMonth_days (datetime st).
Proof.
  intros now st day.
  apply (CalendarMonth_click_keeps_month st day); try (vm_compute; reflexivity).
  exists (dayChain (start (paddedMonthOf now defaultPadding)) 42).
  split; [vm_compute; reflexivity|]. vm_compute. tauto.
Defined.

(** ** The example: stepping to the adjacent window *)





(** ** Sample evaluations *)

Example civil_2021_03_14 :
  Civil.days_from_civil 2021 3 14 = 18700 /\
  Civil.civil_from_days 18700 = Civil.mkDate 2021 3 14 /\
  Civil.weekday_of_days 18700 = 7.
Proof. repeat split; reflexivity. Qed.

Example civil_2020_02_29 :
  Civil.civil_from_days (Civil.days_from_civil 2020 2 29) = Civil.mkDate 2020 2 29 /\
  Civil.days_from_civil 2020 3 1 - Civil.days_from_civil 2020 2 1 = 29.
Proof. split; reflexivity. Qed.

Example newYork_wf : wf_zone newYork = true /\ maxShift newYork = 60.
Proof. split; reflexivity. Qed.

Example newYork_week_of_days :
  segmentCount (viewOfDays (localDateTime newYork 2021 3 14 12 0) "week") = Some 7
  /\ segmentCount (viewOfDays (localDateTime newYork 2021 3 14 12 0) "month") = Some 42.
Proof. split; vm_compute; reflexivity. Qed.

Example leap_february_2020 :
  let m := viewOfIntervalG (localDateTime utc 2020 2 1 0 0) Month in
  DT.localDay (end_ m) - DT.localDay (start m) = 29.
Proof. vm_compute. reflexivity. Qed.
